(** * EMA-crossover strategy: a shallow embedding of [EstrategiaCrucesEMAs]

    The development follows [multi_crypto_ema_strategy.py]: the VWAP
    prefix computation ([calcular_vwap]), the indicator columns and
    crossover flags ([calcular_indicadores]), the signal scan
    ([generar_señales]) and the trade pairing ([calcular_rendimiento]).

    The Python code computes on numpy [float64] values.  Every definition
    below is written once, over an interface [Num] of the arithmetic and
    comparison operations the code uses, and is run at two instances:
    - [float] (module [Binary64]): the IEEE-754 binary64 numbers of the
      kernel, which is the arithmetic the program really performs;
    - [option Q] (module [Exact]): exact rationals with [None] as the
      not-a-number value, i.e. the same program without rounding. *)

From Stdlib Require Import String Bool ZArith QArith Lqa Lia List.
From Stdlib Require Import Floats FloatAxioms Sorted.
Import ListNotations.

(** ** Numbers *)

(** The operations of a Python/numpy number that the program uses.
    [of_int] is the implicit conversion of an integer literal or of a
    [len(...)] result; [nan] is the not-a-number value that [shift(1)]
    and TA-Lib put where no value is available. *)
Class Num (T : Type) : Type := {
  of_int : Z -> T;
  nan : T;
  nadd : T -> T -> T;
  nsub : T -> T -> T;
  nmul : T -> T -> T;
  ndiv : T -> T -> T;
  nlt : T -> T -> bool;
  nle : T -> T -> bool;
  is_zero : T -> bool
}.

Declare Scope num_scope.
Delimit Scope num_scope with num.
Infix "[+]" := nadd (at level 50, left associativity) : num_scope.
Infix "[-]" := nsub (at level 50, left associativity) : num_scope.
Infix "[*]" := nmul (at level 40, left associativity) : num_scope.
Infix "[/]" := ndiv (at level 40, left associativity) : num_scope.
Infix "[<]" := nlt (at level 65, no associativity) : num_scope.
Infix "[<=]" := nle (at level 65, no associativity) : num_scope.
Notation "a [>] b" := (nlt b a) (at level 65, no associativity, only parsing) : num_scope.
Notation "a [>=] b" := (nle b a) (at level 65, no associativity, only parsing) : num_scope.
Open Scope num_scope.

(** What the proofs need to know about comparisons: a comparison with
    [nan] is false, a number above zero is not zero, and adding a zero to
    the integer [0] leaves a zero. *)
Class NumLaws (T : Type) {N : Num T} : Prop := {
  nlt_nan_l : forall x : T, nan [<] x = false;
  nlt_nan_r : forall x : T, x [<] nan = false;
  nle_nan_l : forall x : T, nan [<=] x = false;
  nle_nan_r : forall x : T, x [<=] nan = false;
  nlt_zero_nonzero : forall x : T, of_int 0 [<] x = true -> is_zero x = false;
  is_zero_add_zero : forall x : T, is_zero x = true -> is_zero (of_int 0 [+] x) = true
}.

(** *** IEEE-754 binary64 *)

Module Binary64.

(** Conversion of an integer; exact below 2^53 in absolute value, which
    covers the literals [0], [3], [100] and every list length. *)
Definition float_of_Z (z : Z) : float :=
  match z with
  | Z0 => PrimFloat.zero
  | Zpos _ => PrimFloat.of_uint63 (Uint63.of_Z z)
  | Zneg p => PrimFloat.opp (PrimFloat.of_uint63 (Uint63.of_Z (Zpos p)))
  end.

#[export] Instance num : Num float := {|
  of_int := float_of_Z;
  nan := PrimFloat.nan;
  nadd := PrimFloat.add;
  nsub := PrimFloat.sub;
  nmul := PrimFloat.mul;
  ndiv := PrimFloat.div;
  nlt := PrimFloat.ltb;
  nle := PrimFloat.leb;
  is_zero := fun x => PrimFloat.eqb x PrimFloat.zero
|}.

End Binary64.

(** *** Exact rationals with a not-a-number value *)

Module Exact.

Definition lift2 (f : Q -> Q -> Q) (a b : option Q) : option Q :=
  match a, b with
  | Some x, Some y => Some (Qred (f x y))
  | _, _ => None
  end.

Definition cmp2 (f : Q -> Q -> bool) (a b : option Q) : bool :=
  match a, b with
  | Some x, Some y => f x y
  | _, _ => false
  end.

(** A quotient by zero has no rational value: it is [None]. *)
Definition qdiv (a b : option Q) : option Q :=
  match a, b with
  | Some x, Some y => if Qeq_bool y 0 then None else Some (Qred (x / y))
  | _, _ => None
  end.

Definition qlt_bool (x y : Q) : bool := negb (Qle_bool y x).

#[export] Instance num : Num (option Q) := {|
  of_int := fun z => Some (inject_Z z);
  nan := None;
  nadd := lift2 Qplus;
  nsub := lift2 Qminus;
  nmul := lift2 Qmult;
  ndiv := qdiv;
  nlt := cmp2 qlt_bool;
  nle := cmp2 Qle_bool;
  is_zero := fun a => match a with Some x => Qeq_bool x 0 | None => false end
|}.

End Exact.

(** ** Data model *)

Set Implicit Arguments.
Set Maximal Implicit Insertion.

(** One row of the frame built by [obtener_datos]. *)
Record Bar (T : Type) : Type := {
  timestamp : Z;
  open : T;
  high : T;
  low : T;
  close : T;
  volume : T;
  datetime : Z;
  symbol : string
}.

Inductive Tendencia : Type := ALCISTA | BAJISTA | NEUTRAL.

(** One row of the frame after [calcular_indicadores]: the bar and the
    columns the method adds. *)
Record Fila (T : Type) : Type := {
  bar : Bar T;
  ema_rapida : T;
  ema_lenta : T;
  vwap : T;
  diferencia_emas : T;
  precio_vs_vwap : T;
  cruce_alcista_emas : bool;
  cruce_bajista_emas : bool;
  precio_sobre_vwap : bool;
  cruce_alcista_vwap : bool;
  cruce_bajista_vwap : bool;
  cruce_alcista : bool;
  cruce_bajista : bool;
  tendencia : Tendencia;
  rsi : T;
  macd : T;
  macd_signal : T;
  macd_hist : T
}.

Inductive Tipo : Type := COMPRA | VENTA.

(** The dictionary appended by [generar_señales]. *)
Record Señal (T : Type) : Type := {
  tipo : Tipo;
  s_symbol : string;
  s_datetime : Z;
  precio : T;
  s_ema_rapida : T;
  s_ema_lenta : T;
  s_vwap : T;
  s_precio_vs_vwap : T;
  s_rsi : T;
  s_macd : T;
  confirmacion : list string
}.

(** The [posicion] dictionary of [calcular_rendimiento]. *)
Record Posicion (T : Type) : Type := {
  entrada : T;
  fecha_entrada : Z;
  p_symbol : string
}.

(** One entry of [operaciones]. *)
Record Operacion (T : Type) : Type := {
  o_symbol : string;
  o_entrada : T;
  salida : T;
  o_fecha_entrada : Z;
  fecha_salida : Z;
  rendimiento : T
}.

(** The dictionary returned by [calcular_rendimiento]. *)
Record Rendimiento (T : Type) : Type := {
  operaciones : list (Operacion T);
  rendimiento_total : T;
  num_operaciones : nat;
  tasa_acierto : T;
  rendimiento_promedio : T
}.

(** The attributes of [self] that the methods read. *)
Record Estrategia : Type := {
  symbols : list string;
  timeframe : string;
  periodo_rapida : nat;
  periodo_lenta : nat
}.

(** The TA-Lib functions the program calls.  They are not part of the
    repository: every result below holds for any functions. *)
Record TALib (T : Type) : Type := {
  EMA : list T -> nat -> list T;
  RSI : list T -> nat -> list T;
  MACD : list T -> list T * list T * list T
}.

Unset Maximal Implicit Insertion.
Unset Implicit Arguments.

(** ** The program *)

Section Programa.

Context {T : Type} {N : Num T}.

(** Element-wise operation on two columns. *)
Fixpoint zip_with {A B C : Type} (f : A -> B -> C) (xs : list A) (ys : list B) : list C :=
  match xs, ys with
  | x :: xs', y :: ys' => f x y :: zip_with f xs' ys'
  | _, _ => []
  end.

(** [Series.shift(1)]: every value moves one row down, the first row
    gets [nan], the length is kept. *)
Definition shift1 (xs : list T) : list T := firstn (length xs) (nan :: xs).

(** *** [calcular_vwap] *)

Definition typical_price (df : list (Bar T)) : list T :=
  map (fun b => (high b [+] low b [+] close b) [/] of_int 3) df.

(** The body of the [for] loop, run over the rows
    [(typical_price.iloc[i], df['volume'].iloc[i])] with the two
    running sums. *)
Fixpoint vwap_bucle (cumulative_pv cumulative_volume : T) (filas : list (T * T)) : list T :=
  match filas with
  | [] => []
  | (tp, vol) :: resto =>
      let pv := tp [*] vol in
      let cumulative_pv := cumulative_pv [+] pv in
      let cumulative_volume := cumulative_volume [+] vol in
      let vwap :=
        if cumulative_volume [>] of_int 0
        then cumulative_pv [/] cumulative_volume
        else tp in
      vwap :: vwap_bucle cumulative_pv cumulative_volume resto
  end.

Definition calcular_vwap (df : list (Bar T)) : list T :=
  vwap_bucle (of_int 0) (of_int 0) (combine (typical_price df) (map volume df)).

(** The same loop with the quotient watched: [dividir] fails on a zero
    denominator, and the failure is propagated like an exception. *)
Definition dividir (a b : T) : option T :=
  if is_zero b then None else Some (a [/] b).

Fixpoint vwap_bucle_vigilado (cumulative_pv cumulative_volume : T) (filas : list (T * T))
  : option (list T) :=
  match filas with
  | [] => Some []
  | (tp, vol) :: resto =>
      let pv := tp [*] vol in
      let cumulative_pv := cumulative_pv [+] pv in
      let cumulative_volume := cumulative_volume [+] vol in
      match (if cumulative_volume [>] of_int 0
             then dividir cumulative_pv cumulative_volume
             else Some tp) with
      | None => None
      | Some vwap =>
          option_map (cons vwap) (vwap_bucle_vigilado cumulative_pv cumulative_volume resto)
      end
  end.

Definition calcular_vwap_vigilado (df : list (Bar T)) : option (list T) :=
  vwap_bucle_vigilado (of_int 0) (of_int 0) (combine (typical_price df) (map volume df)).

(** The value of [cumulative_volume] after the iteration of row [i]. *)
Definition volumen_acumulado (df : list (Bar T)) (i : nat) : T :=
  fold_left nadd (firstn (S i) (map volume df)) (of_int 0).

(** *** [calcular_indicadores] *)

Variable talib : TALib T.

Definition clasificar (alcista bajista : bool) : Tendencia :=
  if alcista then ALCISTA else if bajista then BAJISTA else NEUTRAL.

(** The columns are computed in the order of the source; the rows are
    assembled at the end.  Assigning a TA-Lib result whose length differs
    from the frame's raises in pandas: that is the [None] result. *)
Definition calcular_indicadores (self : Estrategia) (df : list (Bar T))
  : option (list (Fila T)) :=
  let c_close := map close df in
  let c_ema_rapida := EMA talib c_close (periodo_rapida self) in
  let c_ema_lenta := EMA talib c_close (periodo_lenta self) in
  let c_vwap := calcular_vwap df in
  let c_diferencia_emas := zip_with nsub c_ema_rapida c_ema_lenta in
  let c_precio_vs_vwap :=
    zip_with (fun c v => (c [-] v) [/] v [*] of_int 100) c_close c_vwap in
  let c_cruce_alcista_emas :=
    zip_with andb
      (zip_with (fun r l => r [>] l) c_ema_rapida c_ema_lenta)
      (zip_with (fun r l => r [<=] l) (shift1 c_ema_rapida) (shift1 c_ema_lenta)) in
  let c_cruce_bajista_emas :=
    zip_with andb
      (zip_with (fun r l => r [<] l) c_ema_rapida c_ema_lenta)
      (zip_with (fun r l => r [>=] l) (shift1 c_ema_rapida) (shift1 c_ema_lenta)) in
  let c_precio_sobre_vwap := zip_with (fun c v => c [>] v) c_close c_vwap in
  let c_cruce_alcista_vwap :=
    zip_with andb
      (zip_with (fun c v => c [>] v) c_close c_vwap)
      (zip_with (fun c v => c [<=] v) (shift1 c_close) (shift1 c_vwap)) in
  let c_cruce_bajista_vwap :=
    zip_with andb
      (zip_with (fun c v => c [<] v) c_close c_vwap)
      (zip_with (fun c v => c [>=] v) (shift1 c_close) (shift1 c_vwap)) in
  let c_cruce_alcista := zip_with andb c_cruce_alcista_emas c_precio_sobre_vwap in
  let c_cruce_bajista := zip_with andb c_cruce_bajista_emas (map negb c_precio_sobre_vwap) in
  let c_tendencia :=
    zip_with clasificar
      (zip_with andb
         (zip_with (fun r l => r [>] l) c_ema_rapida c_ema_lenta)
         (zip_with (fun c v => c [>] v) c_close c_vwap))
      (zip_with andb
         (zip_with (fun r l => r [<] l) c_ema_rapida c_ema_lenta)
         (zip_with (fun c v => c [<] v) c_close c_vwap)) in
  let c_rsi := RSI talib c_close 14 in
  let '(c_macd, c_macd_signal, c_macd_hist) := MACD talib c_close in
  let n := length df in
  if forallb (Nat.eqb n)
       [length c_ema_rapida; length c_ema_lenta; length c_rsi;
        length c_macd; length c_macd_signal; length c_macd_hist]
  then
    Some (map (fun ib : nat * Bar T =>
                 let (i, b) := ib in
                 {| bar := b;
                    ema_rapida := nth i c_ema_rapida nan;
                    ema_lenta := nth i c_ema_lenta nan;
                    vwap := nth i c_vwap nan;
                    diferencia_emas := nth i c_diferencia_emas nan;
                    precio_vs_vwap := nth i c_precio_vs_vwap nan;
                    cruce_alcista_emas := nth i c_cruce_alcista_emas false;
                    cruce_bajista_emas := nth i c_cruce_bajista_emas false;
                    precio_sobre_vwap := nth i c_precio_sobre_vwap false;
                    cruce_alcista_vwap := nth i c_cruce_alcista_vwap false;
                    cruce_bajista_vwap := nth i c_cruce_bajista_vwap false;
                    cruce_alcista := nth i c_cruce_alcista false;
                    cruce_bajista := nth i c_cruce_bajista false;
                    tendencia := nth i c_tendencia NEUTRAL;
                    rsi := nth i c_rsi nan;
                    macd := nth i c_macd nan;
                    macd_signal := nth i c_macd_signal nan;
                    macd_hist := nth i c_macd_hist nan |})
              (combine (seq 0 n) df))
  else None.

(** *** [generar_señales] *)

Definition confirmar_señal_compra (fila : Fila T) : list string :=
  (if rsi fila [<] of_int 70 then ["RSI_OK"%string] else [])
  ++ (if macd fila [>] macd_signal fila then ["MACD_OK"%string] else []).

Definition confirmar_señal_venta (fila : Fila T) : list string :=
  (if rsi fila [>] of_int 30 then ["RSI_OK"%string] else [])
  ++ (if macd fila [<] macd_signal fila then ["MACD_OK"%string] else []).

Definition señal_de (t : Tipo) (fila : Fila T) : Señal T :=
  {| tipo := t;
     s_symbol := symbol (bar fila);
     s_datetime := datetime (bar fila);
     precio := close (bar fila);
     s_ema_rapida := ema_rapida fila;
     s_ema_lenta := ema_lenta fila;
     s_vwap := vwap fila;
     s_precio_vs_vwap := precio_vs_vwap fila;
     s_rsi := rsi fila;
     s_macd := macd fila;
     confirmacion :=
       match t with
       | COMPRA => confirmar_señal_compra fila
       | VENTA => confirmar_señal_venta fila
       end |}.

(** One iteration of the scan: the [if] / [elif] on the row [df.iloc[i]]. *)
Definition señales_paso (señales : list (Señal T)) (fila : Fila T) : list (Señal T) :=
  if cruce_alcista fila then señales ++ [señal_de COMPRA fila]
  else if cruce_bajista fila then señales ++ [señal_de VENTA fila]
  else señales.

Definition generar_señales (df : list (Fila T)) : list (Señal T) :=
  fold_left señales_paso df [].

(** *** [calcular_rendimiento] *)

Definition tipo_eqb (a b : Tipo) : bool :=
  match a, b with
  | COMPRA, COMPRA | VENTA, VENTA => true
  | _, _ => false
  end.

(** The state of the pairing loop: [posicion] and [operaciones]. *)
Definition Estado : Type := (option (Posicion T) * list (Operacion T))%type.

(** One iteration of the pairing loop. *)
Definition paso (st : Estado) (señal : Señal T) : Estado :=
  let (posicion, operaciones) := st in
  match posicion with
  | None =>
      if tipo_eqb (tipo señal) COMPRA
      then (Some {| entrada := precio señal;
                    fecha_entrada := s_datetime señal;
                    p_symbol := s_symbol señal |}, operaciones)
      else st
  | Some pos =>
      if tipo_eqb (tipo señal) VENTA && String.eqb (p_symbol pos) (s_symbol señal)
      then
        let rendimiento := (precio señal [-] entrada pos) [/] entrada pos [*] of_int 100 in
        (None, operaciones ++ [{| o_symbol := s_symbol señal;
                                  o_entrada := entrada pos;
                                  salida := precio señal;
                                  o_fecha_entrada := fecha_entrada pos;
                                  fecha_salida := s_datetime señal;
                                  rendimiento := rendimiento |}])
      else st
  end.

Definition bucle (señales : list (Señal T)) (st : Estado) : Estado :=
  fold_left paso señales st.

(** The trades the pairing loop closes on a signal list. *)
Definition emparejar (señales : list (Señal T)) : list (Operacion T) :=
  snd (bucle señales (None, [])).

Definition ganadora (op : Operacion T) : bool := rendimiento op [>] of_int 0.

Definition calcular_rendimiento (df : list (Fila T)) (señales : list (Señal T))
  : option (Rendimiento T) :=
  if (length señales <? 2)%nat then None
  else
    let operaciones := emparejar señales in
    match operaciones with
    | [] => None
    | _ :: _ =>
        let rendimiento_total :=
          fold_left nadd (map rendimiento operaciones) (of_int 0) in
        let operaciones_ganadoras := length (filter ganadora operaciones) in
        let tasa_acierto :=
          of_int (Z.of_nat operaciones_ganadoras)
            [/] of_int (Z.of_nat (length operaciones)) [*] of_int 100 in
        Some {| operaciones := operaciones;
                rendimiento_total := rendimiento_total;
                num_operaciones := length operaciones;
                tasa_acierto := tasa_acierto;
                rendimiento_promedio :=
                  rendimiento_total [/] of_int (Z.of_nat (length operaciones)) |}
    end.

End Programa.

(** ** A reference model of TA-Lib for running the program

    TA-Lib is an external library.  To run [calcular_indicadores] on
    concrete bars, [talib_ref] gives its [EMA] the usual definition (the
    first [period - 1] values are [nan], the next one is the mean of the
    first [period] inputs, then [e' = (x - e) * k + e] with
    [k = 2 / (period + 1)]), and gives [RSI] and [MACD] the series they
    have while the history is shorter than their lookback: all [nan]. *)

Section TALibReferencia.

Context {T : Type} {N : Num T}.

Definition sin_historia (xs : list T) : list T := map (fun _ => nan) xs.

Fixpoint ema_resto (k prev : T) (xs : list T) : list T :=
  match xs with
  | [] => []
  | x :: resto =>
      let e := (x [-] prev) [*] k [+] prev in
      e :: ema_resto k e resto
  end.

Definition EMA_ref (xs : list T) (period : nat) : list T :=
  if (period <? 2)%nat || (length xs <? period)%nat then sin_historia xs
  else
    let seed := fold_left nadd (firstn period xs) (of_int 0) [/] of_int (Z.of_nat period) in
    let k := of_int 2 [/] of_int (Z.of_nat period + 1) in
    repeat nan (period - 1) ++ seed :: ema_resto k seed (skipn period xs).

Definition talib_ref : TALib T :=
  {| EMA := EMA_ref;
     RSI := fun xs _ => sin_historia xs;
     MACD := fun xs => (sin_historia xs, sin_historia xs, sin_historia xs) |}.

End TALibReferencia.

(** ** The two number systems satisfy the comparison laws *)

Module Binary64Laws.
Import Binary64.

Lemma ltb_nan_left (x : float) : PrimFloat.ltb PrimFloat.nan x = false.
Proof. rewrite ltb_spec. reflexivity. Qed.

Lemma ltb_nan_right (x : float) : PrimFloat.ltb x PrimFloat.nan = false.
Proof.
  rewrite ltb_spec. change (Prim2SF PrimFloat.nan) with S754_nan.
  destruct (Prim2SF x); reflexivity.
Qed.

Lemma leb_nan_left (x : float) : PrimFloat.leb PrimFloat.nan x = false.
Proof. rewrite leb_spec. reflexivity. Qed.

Lemma leb_nan_right (x : float) : PrimFloat.leb x PrimFloat.nan = false.
Proof.
  rewrite leb_spec. change (Prim2SF PrimFloat.nan) with S754_nan.
  destruct (Prim2SF x); reflexivity.
Qed.

Lemma positive_nonzero (x : float) :
  PrimFloat.ltb PrimFloat.zero x = true -> PrimFloat.eqb x PrimFloat.zero = false.
Proof.
  rewrite ltb_spec, eqb_spec.
  change (Prim2SF PrimFloat.zero) with (S754_zero false).
  destruct (Prim2SF x) as [s | s | | s m e]; try destruct s; cbn; congruence.
Qed.

Lemma zero_plus_zero (x : float) :
  PrimFloat.eqb x PrimFloat.zero = true ->
  PrimFloat.eqb (PrimFloat.add PrimFloat.zero x) PrimFloat.zero = true.
Proof.
  rewrite !eqb_spec, add_spec.
  change (Prim2SF PrimFloat.zero) with (S754_zero false).
  destruct (Prim2SF x) as [s | s | | s m e]; try destruct s; cbn; congruence.
Qed.

#[export] Instance laws : NumLaws float.
Proof.
  split.
  - exact ltb_nan_left.
  - exact ltb_nan_right.
  - exact leb_nan_left.
  - exact leb_nan_right.
  - exact positive_nonzero.
  - exact zero_plus_zero.
Qed.

End Binary64Laws.

Module ExactLaws.
Import Exact.

Lemma qlt_bool_iff (x y : Q) : qlt_bool x y = true <-> x < y.
Proof.
  unfold qlt_bool. rewrite negb_true_iff, <- not_true_iff_false, Qle_bool_iff.
  split; [apply Qnot_le_lt | apply Qlt_not_le].
Qed.

#[export] Instance laws : NumLaws (option Q).
Proof.
  split.
  - reflexivity.
  - intros [x|]; reflexivity.
  - reflexivity.
  - intros [x|]; reflexivity.
  - intros [x|]; [|discriminate].
    change (qlt_bool (inject_Z 0) x = true -> Qeq_bool x 0 = false).
    rewrite qlt_bool_iff. intros H.
    apply not_true_iff_false. rewrite Qeq_bool_iff. intros E.
    rewrite E in H. revert H. apply Qlt_irrefl.
  - intros [x|]; [|discriminate].
    change (Qeq_bool x 0 = true -> Qeq_bool (Qred (inject_Z 0 + x)) 0 = true).
    rewrite !Qeq_bool_iff, Qred_correct. intros E. rewrite E. reflexivity.
Qed.

End ExactLaws.

(** ** Subsequences *)

Inductive Subseq {A : Type} : list A -> list A -> Prop :=
| Subseq_nil : Subseq [] []
| Subseq_skip : forall x l1 l2, Subseq l1 l2 -> Subseq l1 (x :: l2)
| Subseq_take : forall x l1 l2, Subseq l1 l2 -> Subseq (x :: l1) (x :: l2).

Section SubseqFacts.

Context {A : Type}.

Lemma Subseq_refl (l : list A) : Subseq l l.
Proof. induction l; constructor; assumption. Qed.

Lemma Subseq_nil_l (l : list A) : Subseq [] l.
Proof. induction l; constructor; assumption. Qed.

Lemma Subseq_app (l1 l2 l3 l4 : list A) :
  Subseq l1 l2 -> Subseq l3 l4 -> Subseq (l1 ++ l3) (l2 ++ l4).
Proof.
  intros H12 H34. induction H12; cbn; try constructor; assumption.
Qed.

Lemma Subseq_snoc_skip (l1 l2 : list A) (x : A) :
  Subseq l1 l2 -> Subseq l1 (l2 ++ [x]).
Proof.
  intros H. rewrite <- (app_nil_r l1).
  apply Subseq_app; [assumption | apply Subseq_nil_l].
Qed.

Lemma Subseq_snoc_take (l1 l2 : list A) (x : A) :
  Subseq l1 l2 -> Subseq (l1 ++ [x]) (l2 ++ [x]).
Proof. intros H. apply Subseq_app; [assumption | apply Subseq_refl]. Qed.

Lemma Subseq_app_inv_l (l1 l3 l2 : list A) : Subseq (l1 ++ l3) l2 -> Subseq l1 l2.
Proof.
  intros H. remember (l1 ++ l3) as l eqn:Hl. revert l1 Hl.
  induction H as [| x k1 k2 H IH | x k1 k2 H IH]; intros l1 Hl.
  - destruct l1; [constructor | discriminate].
  - apply Subseq_skip, IH, Hl.
  - destruct l1 as [|a l1].
    + apply Subseq_nil_l.
    + cbn in Hl. injection Hl as -> ->. apply Subseq_take, IH. reflexivity.
Qed.

Lemma Subseq_length (l1 l2 : list A) : Subseq l1 l2 -> (length l1 <= length l2)%nat.
Proof. induction 1; cbn; lia. Qed.

Lemma Subseq_Forall (P : A -> Prop) (l1 l2 : list A) :
  Subseq l1 l2 -> Forall P l2 -> Forall P l1.
Proof.
  induction 1; intros HF; try assumption; inversion HF; subst; auto.
Qed.

Lemma Subseq_StronglySorted (R : A -> A -> Prop) (l1 l2 : list A) :
  Subseq l1 l2 -> StronglySorted R l2 -> StronglySorted R l1.
Proof.
  induction 1; intros HS; try assumption.
  - inversion HS; subst; auto.
  - inversion HS; subst. constructor; [auto|].
    eapply Subseq_Forall; eassumption.
Qed.

End SubseqFacts.

Lemma Subseq_map {A B : Type} (f : A -> B) (l1 l2 : list A) :
  Subseq l1 l2 -> Subseq (map f l1) (map f l2).
Proof. induction 1; cbn; constructor; assumption. Qed.

(** ** The pairing loop of [calcular_rendimiento] *)

Section Emparejamiento.

Context {T : Type} {N : Num T}.

Lemma bucle_app (a b : list (Señal T)) (st : Estado) :
  bucle (a ++ b) st = bucle b (bucle a st).
Proof. apply fold_left_app. Qed.

Lemma bucle_snoc (a : list (Señal T)) (s : Señal T) (st : Estado) :
  bucle (a ++ [s]) st = paso (bucle a st) s.
Proof. rewrite bucle_app. reflexivity. Qed.

(** A property of the state kept by every iteration holds at the end. *)
Lemma bucle_inv (P : Estado -> Prop) :
  (forall st s, P st -> P (paso st s)) ->
  forall señales st, P st -> P (bucle señales st).
Proof.
  intros Hstep señales. induction señales as [|s resto IH]; intros st Hst.
  - exact Hst.
  - apply IH, Hstep, Hst.
Qed.

Lemma paso_compra_abierta (pos : Posicion T) (ops : list (Operacion T)) (s : Señal T) :
  tipo s = COMPRA -> paso (Some pos, ops) s = (Some pos, ops).
Proof. intros Ht. unfold paso. rewrite Ht. reflexivity. Qed.

Lemma paso_venta_cerrada (ops : list (Operacion T)) (s : Señal T) :
  tipo s = VENTA -> paso (None, ops) s = (None, ops).
Proof. intros Ht. unfold paso. rewrite Ht. reflexivity. Qed.

Lemma paso_otro_symbol (pos : Posicion T) (ops : list (Operacion T)) (s : Señal T) :
  s_symbol s <> p_symbol pos -> paso (Some pos, ops) s = (Some pos, ops).
Proof.
  intros Hs. unfold paso.
  destruct (String.eqb_spec (p_symbol pos) (s_symbol s)) as [E|_].
  - congruence.
  - rewrite andb_false_r. reflexivity.
Qed.

Lemma paso_venta_mismo_symbol (pos : Posicion T) (ops : list (Operacion T)) (s : Señal T) :
  tipo s = VENTA -> s_symbol s = p_symbol pos ->
  paso (Some pos, ops) s =
  (None, ops ++ [{| o_symbol := s_symbol s;
                    o_entrada := entrada pos;
                    salida := precio s;
                    o_fecha_entrada := fecha_entrada pos;
                    fecha_salida := s_datetime s;
                    rendimiento :=
                      (precio s [-] entrada pos) [/] entrada pos [*] of_int 100 |}]).
Proof.
  intros Ht Hs. unfold paso. rewrite Ht, Hs, String.eqb_refl. reflexivity.
Qed.

Lemma paso_compra_cerrada (ops : list (Operacion T)) (s : Señal T) :
  tipo s = COMPRA ->
  paso (None, ops) s =
  (Some {| entrada := precio s; fecha_entrada := s_datetime s; p_symbol := s_symbol s |},
   ops).
Proof. intros Ht. unfold paso. rewrite Ht. reflexivity. Qed.

(** The four cases of one iteration. *)
Lemma paso_casos (st : Estado) (s : Señal T) :
  paso st s = st
  \/ (exists ops, st = (None, ops) /\ tipo s = COMPRA)
  \/ (exists pos ops, st = (Some pos, ops) /\ tipo s = VENTA /\ s_symbol s = p_symbol pos).
Proof.
  destruct st as [[pos|] ops].
  - destruct (tipo s) eqn:Ht.
    + left. apply paso_compra_abierta, Ht.
    + destruct (String.eqb_spec (s_symbol s) (p_symbol pos)) as [E|NE].
      * right. right. exists pos, ops. auto.
      * left. apply paso_otro_symbol, NE.
  - destruct (tipo s) eqn:Ht.
    + right. left. exists ops. auto.
    + left. apply paso_venta_cerrada, Ht.
Qed.

(** Fewer than two signals close no trade. *)
Lemma emparejar_corta (señales : list (Señal T)) :
  (length señales < 2)%nat -> emparejar señales = [].
Proof.
  destruct señales as [|s [|s' resto]]; cbn [length]; intros Hlen; try lia.
  - reflexivity.
  - unfold emparejar, bucle. cbn [fold_left]. unfold paso.
    destruct (tipo_eqb (tipo s) COMPRA); reflexivity.
Qed.

(** The summary built from the closed trades: the end of
    [calcular_rendimiento], from [if operaciones:] on. *)
Definition resumir (ops : list (Operacion T)) : option (Rendimiento T) :=
  match ops with
  | [] => None
  | _ :: _ =>
      let total := fold_left nadd (map rendimiento ops) (of_int 0) in
      Some {| operaciones := ops;
              rendimiento_total := total;
              num_operaciones := length ops;
              tasa_acierto :=
                of_int (Z.of_nat (length (filter ganadora ops)))
                  [/] of_int (Z.of_nat (length ops)) [*] of_int 100;
              rendimiento_promedio := total [/] of_int (Z.of_nat (length ops)) |}
  end.

(** The early [return None] changes nothing: the result is the summary
    of the trades the loop closes. *)
Lemma calcular_rendimiento_resumir (df : list (Fila T)) (señales : list (Señal T)) :
  calcular_rendimiento df señales = resumir (emparejar señales).
Proof.
  unfold calcular_rendimiento.
  destruct (Nat.ltb_spec (length señales) 2) as [Hlt|Hge].
  - rewrite emparejar_corta by assumption. reflexivity.
  - destruct (emparejar señales); reflexivity.
Qed.

Lemma resumir_some (ops : list (Operacion T)) (r : Rendimiento T) :
  resumir ops = Some r -> operaciones r = ops.
Proof.
  destruct ops; cbn; [discriminate|]. intros E. injection E as <-. reflexivity.
Qed.

(** Every trade's return is the percentage change of its two prices. *)
Definition rendimiento_ok (op : Operacion T) : Prop :=
  rendimiento op = (salida op [-] o_entrada op) [/] o_entrada op [*] of_int 100.

Lemma emparejar_rendimiento_ok (señales : list (Señal T)) :
  Forall rendimiento_ok (emparejar señales).
Proof.
  unfold emparejar.
  apply (bucle_inv (fun st => Forall rendimiento_ok (snd st))); [|constructor].
  intros st s Hst.
  destruct (paso_casos st s) as [E | [(ops & -> & Ht) | (pos & ops & -> & Ht & Hs)]].
  - rewrite E. exact Hst.
  - rewrite paso_compra_cerrada by assumption. exact Hst.
  - rewrite paso_venta_mismo_symbol by assumption. cbn [snd] in *.
    apply Forall_app. split; [exact Hst|].
    constructor; [reflexivity | constructor].
Qed.

(** *** The events of the trades are a subsequence of the signals *)

Definition Evento : Type := (Tipo * string * Z * T)%type.

Definition evento_de_señal (s : Señal T) : Evento :=
  (tipo s, s_symbol s, s_datetime s, precio s).

Definition eventos_de_operacion (op : Operacion T) : list Evento :=
  [(COMPRA, o_symbol op, o_fecha_entrada op, o_entrada op);
   (VENTA, o_symbol op, fecha_salida op, salida op)].

Definition eventos_de_estado (st : Estado) : list Evento :=
  flat_map eventos_de_operacion (snd st)
  ++ match fst st with
     | Some pos => [(COMPRA, p_symbol pos, fecha_entrada pos, entrada pos)]
     | None => []
     end.

Lemma eventos_de_estado_subseq (señales : list (Señal T)) :
  Subseq (eventos_de_estado (bucle señales (None, []))) (map evento_de_señal señales).
Proof.
  induction señales as [|s pre IH] using rev_ind.
  - constructor.
  - rewrite bucle_snoc, map_app. cbn [map].
    destruct (paso_casos (bucle pre (None, [])) s)
      as [E | [(ops & E & Ht) | (pos & ops & E & Ht & Hs)]].
    + rewrite E. apply Subseq_snoc_skip, IH.
    + rewrite E in *. rewrite paso_compra_cerrada by assumption.
      unfold eventos_de_estado in *. cbn [fst snd] in *.
      rewrite app_nil_r in IH. unfold evento_de_señal. rewrite Ht.
      apply Subseq_snoc_take, IH.
    + rewrite E in *. rewrite paso_venta_mismo_symbol by assumption.
      unfold eventos_de_estado in *. cbn [fst snd] in *.
      rewrite flat_map_app, app_nil_r. cbn [flat_map]. rewrite app_nil_r.
      replace (eventos_de_operacion _)
        with ([(COMPRA, p_symbol pos, fecha_entrada pos, entrada pos)]
                ++ [evento_de_señal s])
        by (unfold eventos_de_operacion, evento_de_señal; cbn;
            rewrite Ht, Hs; reflexivity).
      rewrite app_assoc. apply Subseq_snoc_take, IH.
Qed.

Lemma emparejar_subseq (señales : list (Señal T)) :
  Subseq (flat_map eventos_de_operacion (emparejar señales))
         (map evento_de_señal señales).
Proof.
  pose proof (eventos_de_estado_subseq señales) as H.
  unfold eventos_de_estado in H.
  remember (map evento_de_señal señales) as L eqn:HL. clear HL.
  unfold emparejar.
  remember (flat_map eventos_de_operacion (snd (bucle señales (None, [])))) as E eqn:HE.
  clear HE.
  destruct (fst (bucle señales (None, []))) as [pos|].
  - eapply Subseq_app_inv_l, H.
  - rewrite app_nil_r in H. exact H.
Qed.

(** The times of the trades, in the order of [operaciones]. *)
Definition fechas (ops : list (Operacion T)) : list Z :=
  flat_map (fun op => [o_fecha_entrada op; fecha_salida op]) ops.

Lemma fechas_eventos (ops : list (Operacion T)) :
  fechas ops = map (fun e : Evento => snd (fst e)) (flat_map eventos_de_operacion ops).
Proof.
  induction ops as [|op ops IH]; [reflexivity|].
  cbn. unfold fechas in IH. cbn in IH. rewrite IH. reflexivity.
Qed.

Lemma emparejar_fechas_subseq (señales : list (Señal T)) :
  Subseq (fechas (emparejar señales)) (map s_datetime señales).
Proof.
  rewrite fechas_eventos.
  replace (map s_datetime señales)
    with (map (fun e : Evento => snd (fst e)) (map evento_de_señal señales)).
  - apply Subseq_map, emparejar_subseq.
  - rewrite map_map. reflexivity.
Qed.

Lemma emparejar_fechas_sorted (señales : list (Señal T)) :
  Sorted Z.le (map s_datetime señales) -> Sorted Z.le (fechas (emparejar señales)).
Proof.
  intros HS. apply StronglySorted_Sorted.
  eapply Subseq_StronglySorted; [apply emparejar_fechas_subseq|].
  apply Sorted_StronglySorted; [|exact HS].
  intros x y z. apply Z.le_trans.
Qed.

End Emparejamiento.

(** ** Concrete signal lists *)

Import Binary64 Exact Binary64Laws ExactLaws.

Section Ejemplos.

Context {T : Type} {N : Num T}.

(** A signal with the fields the pairing loop reads; the indicator
    snapshot is left unavailable. *)
Definition señal_simple (t : Tipo) (sym : string) (fecha : Z) (p : Z) : Señal T :=
  {| tipo := t; s_symbol := sym; s_datetime := fecha; precio := of_int p;
     s_ema_rapida := nan; s_ema_lenta := nan; s_vwap := nan;
     s_precio_vs_vwap := nan; s_rsi := nan; s_macd := nan;
     confirmacion := [] |}.

(** [BUY@100, BUY@90, SELL@95] for one instrument. *)
Definition señales_doble_compra : list (Señal T) :=
  [señal_simple COMPRA "X" 1 100; señal_simple COMPRA "X" 2 90;
   señal_simple VENTA "X" 3 95].

(** [BUY@100, SELL@110] for one instrument. *)
Definition señales_ganadora : list (Señal T) :=
  [señal_simple COMPRA "X" 1 100; señal_simple VENTA "X" 2 110].

(** Two instruments interleaved: [A] is bought, then [B] is bought and
    sold while [A] is open, then [A] is sold. *)
Definition señales_intercaladas : list (Señal T) :=
  [señal_simple COMPRA "A" 1 100; señal_simple COMPRA "B" 2 50;
   señal_simple VENTA "B" 3 60; señal_simple VENTA "A" 4 110].

Definition resumen_doble_compra : Rendimiento T :=
  {| operaciones :=
       [{| o_symbol := "X"; o_entrada := of_int 100; salida := of_int 95;
           o_fecha_entrada := 1; fecha_salida := 3; rendimiento := of_int (-5) |}];
     rendimiento_total := of_int (-5);
     num_operaciones := 1;
     tasa_acierto := of_int 0;
     rendimiento_promedio := of_int (-5) |}.

Definition resumen_ganadora : Rendimiento T :=
  {| operaciones :=
       [{| o_symbol := "X"; o_entrada := of_int 100; salida := of_int 110;
           o_fecha_entrada := 1; fecha_salida := 2; rendimiento := of_int 10 |}];
     rendimiento_total := of_int 10;
     num_operaciones := 1;
     tasa_acierto := of_int 100;
     rendimiento_promedio := of_int 10 |}.

End Ejemplos.

(** ** Properties of [calcular_rendimiento] *)

(** C1.  In the pairing loop of [calcular_rendimiento], a BUY signal that
    arrives while a position is open leaves the state (hence the entry
    price of the open position) unchanged and can be dropped from the list
    without changing the result; a SELL signal that arrives with no open
    position likewise; every trade of a returned summary has return
    [(sell - buy) / buy * 100]; and [BUY@100, BUY@90, SELL@95] yields
    exactly one trade, with entry price 100 and return -5, in binary64 as
    in exact arithmetic. *)
Theorem calcular_rendimiento_pairing :
  (forall (T : Type) (N : Num T) (df : list (Fila T))
          (pre post : list (Señal T)) (s : Señal T),
      (tipo s = COMPRA -> fst (bucle pre (None, [])) <> None ->
       bucle (pre ++ [s]) (None, []) = bucle pre (None, [])
       /\ calcular_rendimiento df (pre ++ s :: post) = calcular_rendimiento df (pre ++ post))
      /\ (tipo s = VENTA -> fst (bucle pre (None, [])) = None ->
          bucle (pre ++ [s]) (None, []) = bucle pre (None, [])
          /\ calcular_rendimiento df (pre ++ s :: post) = calcular_rendimiento df (pre ++ post))
      /\ (forall r, calcular_rendimiento df pre = Some r ->
          Forall (fun op => rendimiento op
                            = (salida op [-] o_entrada op) [/] o_entrada op [*] of_int 100)
                 (operaciones r)))
  /\ @calcular_rendimiento float _ [] señales_doble_compra = Some resumen_doble_compra
  /\ @calcular_rendimiento (option Q) _ [] señales_doble_compra = Some resumen_doble_compra.
Proof.
  split; [|split; vm_compute; reflexivity].
  intros T N df pre post s.
  assert (Hdrop : paso (bucle pre (None, [])) s = bucle pre (None, []) ->
                  bucle (pre ++ [s]) (None, []) = bucle pre (None, [])
                  /\ calcular_rendimiento df (pre ++ s :: post)
                     = calcular_rendimiento df (pre ++ post)).
  { intros E. split.
    - rewrite bucle_snoc. exact E.
    - rewrite !calcular_rendimiento_resumir. f_equal. unfold emparejar.
      rewrite !bucle_app.
      change (bucle (s :: post) (bucle pre (None, [])))
        with (bucle post (paso (bucle pre (None, [])) s)).
      rewrite E. reflexivity. }
  split; [|split].
  - intros Ht Hp. apply Hdrop.
    destruct (bucle pre (None, [])) as [[pos|] ops]; [|contradiction].
    apply paso_compra_abierta. assumption.
  - intros Ht Hp. apply Hdrop.
    destruct (bucle pre (None, [])) as [[pos|] ops]; [discriminate|].
    apply paso_venta_cerrada. assumption.
  - intros r Hr. rewrite calcular_rendimiento_resumir in Hr.
    apply resumir_some in Hr. rewrite Hr. apply emparejar_rendimiento_ok.
Qed.

Lemma calcular_rendimiento_pairing_witness :
  @calcular_rendimiento float _ []
    ([señal_simple COMPRA "X" 1 100] ++ señal_simple COMPRA "X" 2 90
       :: [señal_simple VENTA "X" 3 95])
  = calcular_rendimiento []
      ([señal_simple COMPRA "X" 1 100] ++ [señal_simple VENTA "X" 3 95]).
Proof.
  apply (proj1 (proj1 calcular_rendimiento_pairing float _ []
                  [señal_simple COMPRA "X" 1 100] [señal_simple VENTA "X" 3 95]
                  (señal_simple COMPRA "X" 2 90))).
  - reflexivity.
  - vm_compute. discriminate.
Defined.

(** C2.  [calcular_rendimiento] returns a summary exactly when the pairing
    loop closes at least one trade: the result is [None] when there are
    fewer than two signals and when no trade is closed; a closed trade
    implies at least two signals, and then the summary is returned and
    holds the trades of the loop. *)
Theorem calcular_rendimiento_none_iff
  (T : Type) (N : Num T) (df : list (Fila T)) (señales : list (Señal T)) :
  (calcular_rendimiento df señales = None <-> emparejar señales = [])
  /\ ((length señales < 2)%nat -> calcular_rendimiento df señales = None)
  /\ (emparejar señales <> [] -> (2 <= length señales)%nat)
  /\ (emparejar señales <> [] ->
      exists r, calcular_rendimiento df señales = Some r
                /\ operaciones r = emparejar señales).
Proof.
  rewrite calcular_rendimiento_resumir.
  split; [|split; [|split]].
  - destruct (emparejar señales); cbn; split; congruence.
  - intros Hlen. rewrite emparejar_corta by assumption. reflexivity.
  - intros Hne. destruct (Nat.lt_ge_cases (length señales) 2) as [Hlt|Hge]; [|exact Hge].
    apply emparejar_corta in Hlt. contradiction.
  - intros Hne. destruct (emparejar señales) as [|op ops]; [contradiction|].
    eexists. split; reflexivity.
Qed.

Lemma calcular_rendimiento_none_iff_witness :
  (2 <= length (@señales_ganadora float _))%nat
  /\ exists r, @calcular_rendimiento float _ [] señales_ganadora = Some r
               /\ operaciones r = emparejar señales_ganadora.
Proof.
  pose proof (calcular_rendimiento_none_iff float _ [] señales_ganadora)
    as (_ & _ & Hlen & Hsome).
  assert (Hne : @emparejar float _ señales_ganadora <> []) by (vm_compute; discriminate).
  split; [apply Hlen | apply Hsome]; exact Hne.
Defined.

(** C3 (as the code has it).  In a returned summary, the win rate is the
    number of trades with a return above zero, divided by the number of
    trades and multiplied by 100 (a percentage); the average return is the
    total return divided by the number of trades; the total return is the
    sum of the trades' returns, added from the integer 0 in list order. *)
Theorem resumen_estadisticas
  (T : Type) (N : Num T) (df : list (Fila T)) (señales : list (Señal T))
  (r : Rendimiento T) :
  calcular_rendimiento df señales = Some r ->
  tasa_acierto r
  = of_int (Z.of_nat (length (filter (fun op => rendimiento op [>] of_int 0) (operaciones r))))
      [/] of_int (Z.of_nat (length (operaciones r))) [*] of_int 100
  /\ rendimiento_promedio r
     = rendimiento_total r [/] of_int (Z.of_nat (length (operaciones r)))
  /\ rendimiento_total r = fold_left nadd (map rendimiento (operaciones r)) (of_int 0)
  /\ num_operaciones r = length (operaciones r)
  /\ operaciones r = emparejar señales.
Proof.
  rewrite calcular_rendimiento_resumir.
  destruct (emparejar señales) as [|op ops]; cbn [resumir]; [discriminate|].
  intros E. injection E as <-. cbn. repeat split.
Qed.

Lemma resumen_estadisticas_witness :
  @calcular_rendimiento float _ [] señales_ganadora = Some resumen_ganadora
  /\ tasa_acierto (@resumen_ganadora float _) = 100%float
  /\ rendimiento_promedio (@resumen_ganadora float _) = 10%float.
Proof.
  assert (H : @calcular_rendimiento float _ [] señales_ganadora = Some resumen_ganadora)
    by (vm_compute; reflexivity).
  split; [exact H|].
  destruct (resumen_estadisticas float _ [] señales_ganadora resumen_ganadora H)
    as (Htasa & Hprom & _).
  split.
  - rewrite Htasa. vm_compute. reflexivity.
  - rewrite Hprom. vm_compute. reflexivity.
Defined.

(** C3, as a fraction, fails: the win rate of [BUY@100, SELL@110] is
    100, while the fraction of winning trades is 1. *)
Lemma tasa_acierto_not_fraction :
  exists r : Rendimiento float,
    calcular_rendimiento [] señales_ganadora = Some r
    /\ tasa_acierto r
       <> of_int (Z.of_nat (length (filter (fun op => rendimiento op [>] of_int 0)
                                          (operaciones r))))
            [/] of_int (Z.of_nat (length (operaciones r))).
Proof.
  eexists. split; [vm_compute; reflexivity|].
  vm_compute. intros H.
  apply (f_equal (fun x => PrimFloat.eqb x 1)) in H. vm_compute in H. discriminate.
Qed.

(** C10.  The pairing loop has a single position for the whole list.
    While a position is open, a BUY signal of any instrument leaves the
    state unchanged, and so does any signal whose symbol differs from the
    open position's; only a SELL signal with the position's symbol closes
    it.  Hence the opening and closing events of the trades, in the order
    of [operaciones], are a subsequence of the signals, and over a list
    sorted by time the trades follow one another without overlap, whatever
    their instruments. *)
Theorem posicion_unica_global
  (T : Type) (N : Num T) (señales : list (Señal T)) :
  (forall pos ops s, tipo s = COMPRA -> paso (Some pos, ops) s = (Some pos, ops))
  /\ (forall pos ops s, s_symbol s <> p_symbol pos ->
      paso (Some pos, ops) s = (Some pos, ops))
  /\ (forall pos ops s, tipo s = VENTA -> s_symbol s = p_symbol pos ->
      exists op, paso (Some pos, ops) s = (None, ops ++ [op])
                 /\ o_symbol op = p_symbol pos
                 /\ o_entrada op = entrada pos /\ salida op = precio s
                 /\ o_fecha_entrada op = fecha_entrada pos
                 /\ fecha_salida op = s_datetime s)
  /\ Subseq (flat_map eventos_de_operacion (emparejar señales))
            (map evento_de_señal señales)
  /\ (Sorted Z.le (map s_datetime señales) ->
      Sorted Z.le (flat_map (fun op => [o_fecha_entrada op; fecha_salida op])
                            (emparejar señales))).
Proof.
  split; [|split; [|split; [|split]]].
  - intros pos ops s. apply paso_compra_abierta.
  - intros pos ops s. apply paso_otro_symbol.
  - intros pos ops s Ht Hs. eexists. split.
    + apply paso_venta_mismo_symbol; assumption.
    + cbn. auto.
  - apply emparejar_subseq.
  - apply emparejar_fechas_sorted.
Qed.

Lemma posicion_unica_global_witness :
  @emparejar float _ señales_intercaladas
  = [{| o_symbol := "A"; o_entrada := 100; salida := 110;
        o_fecha_entrada := 1; fecha_salida := 4; rendimiento := 10 |}]%float
  /\ Sorted Z.le (flat_map (fun op => [o_fecha_entrada op; fecha_salida op])
                           (@emparejar float _ señales_intercaladas)).
Proof.
  split; [vm_compute; reflexivity|].
  apply (posicion_unica_global float _ señales_intercaladas).
  cbn. repeat constructor; discriminate.
Defined.

(** ** The prefix computation of [calcular_vwap] *)

Section Vwap.

Context {T : Type} {N : Num T}.

(** The typical price of one bar. *)
Definition precio_tipico (b : Bar T) : T :=
  (high b [+] low b [+] close b) [/] of_int 3.

Lemma combine_map_map {A B C : Type} (f : A -> B) (g : A -> C) (l : list A) :
  combine (map f l) (map g l) = map (fun x => (f x, g x)) l.
Proof. induction l as [|x l IH]; cbn; [|rewrite IH]; reflexivity. Qed.

Lemma filas_vwap (df : list (Bar T)) :
  combine (typical_price df) (map volume df)
  = map (fun b => (precio_tipico b, volume b)) df.
Proof. apply combine_map_map. Qed.

Lemma vwap_bucle_length (filas : list (T * T)) :
  forall cpv cv, length (vwap_bucle cpv cv filas) = length filas.
Proof.
  induction filas as [|[tp vol] resto IH]; intros cpv cv; cbn; [|rewrite IH]; reflexivity.
Qed.

Lemma calcular_vwap_length (df : list (Bar T)) :
  length (calcular_vwap df) = length df.
Proof.
  unfold calcular_vwap. rewrite vwap_bucle_length, filas_vwap. apply length_map.
Qed.

(** No look-ahead: the values computed on a prefix of the rows are the
    prefix of the values. *)
Lemma vwap_bucle_firstn (k : nat) (filas : list (T * T)) :
  forall cpv cv,
    vwap_bucle cpv cv (firstn k filas) = firstn k (vwap_bucle cpv cv filas).
Proof.
  revert filas. induction k as [|k IH]; intros filas cpv cv; [reflexivity|].
  destruct filas as [|[tp vol] resto]; [reflexivity|].
  cbn. rewrite IH. reflexivity.
Qed.

Lemma calcular_vwap_firstn (k : nat) (df : list (Bar T)) :
  calcular_vwap (firstn k df) = firstn k (calcular_vwap df).
Proof.
  unfold calcular_vwap. rewrite !filas_vwap, <- vwap_bucle_firstn, firstn_map.
  reflexivity.
Qed.

(** The value at row [i] in terms of the two running sums. *)
Lemma vwap_bucle_nth (filas : list (T * T)) :
  forall (i : nat) (cpv cv d : T),
    (i < length filas)%nat ->
    nth i (vwap_bucle cpv cv filas) d
    = let cpv_i :=
        fold_left nadd (firstn (S i) (map (fun f => fst f [*] snd f) filas)) cpv in
      let cv_i := fold_left nadd (firstn (S i) (map snd filas)) cv in
      if cv_i [>] of_int 0 then cpv_i [/] cv_i else nth i (map fst filas) d.
Proof.
  induction filas as [|[tp vol] resto IH]; intros i cpv cv d Hi; cbn [length] in Hi.
  - lia.
  - destruct i as [|i].
    + reflexivity.
    + cbn [vwap_bucle nth]. rewrite IH by lia. reflexivity.
Qed.

Lemma calcular_vwap_nth (df : list (Bar T)) (i : nat) (d : T) :
  (i < length df)%nat ->
  nth i (calcular_vwap df) d
  = let cpv_i :=
      fold_left nadd
        (firstn (S i) (map (fun b => precio_tipico b [*] volume b) df)) (of_int 0) in
    if volumen_acumulado df i [>] of_int 0
    then cpv_i [/] volumen_acumulado df i
    else nth i (typical_price df) d.
Proof.
  intros Hi. unfold calcular_vwap, volumen_acumulado.
  rewrite filas_vwap, vwap_bucle_nth by (rewrite length_map; exact Hi).
  rewrite !map_map. reflexivity.
Qed.

Context {L : NumLaws T}.

Lemma zero_not_positive (x : T) : is_zero x = true -> of_int 0 [<] x = false.
Proof.
  intros Hz. destruct (of_int 0 [<] x) eqn:E; [|reflexivity].
  apply nlt_zero_nonzero in E. congruence.
Qed.

(** The watched loop never fails and computes the same values. *)
Lemma vwap_bucle_vigilado_ok (filas : list (T * T)) :
  forall cpv cv,
    vwap_bucle_vigilado cpv cv filas = Some (vwap_bucle cpv cv filas).
Proof.
  induction filas as [|[tp vol] resto IH]; intros cpv cv; [reflexivity|].
  cbn [vwap_bucle_vigilado vwap_bucle]. rewrite IH. unfold dividir.
  destruct (of_int 0 [<] cv [+] vol) eqn:Hpos; [|reflexivity].
  rewrite (nlt_zero_nonzero _ Hpos). reflexivity.
Qed.

End Vwap.

(** ** Properties of [calcular_vwap] *)

(** Three bars of which the first two have no volume. *)
Definition barras_sin_volumen {T : Type} {N : Num T} : list (Bar T) :=
  map (fun q : Z * Z * Z * Z * Z =>
         let '(t, h, l, c, v) := q in
         {| timestamp := t; open := of_int c; high := of_int h; low := of_int l;
            close := of_int c; volume := of_int v; datetime := t; symbol := "X" |})
      [(1, 2, 1, 2, 0); (2, 4, 3, 3, 0); (3, 6, 5, 5, 4)]%Z.

(** C4.  At every row where the cumulative volume is zero, [calcular_vwap]
    gives the typical price [(high + low + close) / 3] of that row; the
    loop with the quotient watched never meets a zero denominator and
    returns the same values; a single bar with zero volume yields its own
    typical price. *)
Theorem vwap_volumen_cero
  (T : Type) (N : Num T) (L : NumLaws T) (df : list (Bar T)) :
  (forall i, (i < length df)%nat ->
     is_zero (volumen_acumulado df i) = true ->
     nth i (calcular_vwap df) nan = nth i (typical_price df) nan
     /\ nth_error (typical_price df) i
        = option_map (fun b => (high b [+] low b [+] close b) [/] of_int 3)
                     (nth_error df i))
  /\ calcular_vwap_vigilado df = Some (calcular_vwap df)
  /\ (forall b, is_zero (volume b) = true ->
      calcular_vwap [b] = [(high b [+] low b [+] close b) [/] of_int 3]).
Proof.
  split; [|split].
  - intros i Hi Hz. split.
    + rewrite calcular_vwap_nth by exact Hi. cbn zeta.
      rewrite (zero_not_positive _ Hz). reflexivity.
    + unfold typical_price. apply nth_error_map.
  - apply vwap_bucle_vigilado_ok.
  - intros b Hz. unfold calcular_vwap. cbn.
    rewrite (zero_not_positive _ (is_zero_add_zero _ Hz)). reflexivity.
Qed.

Lemma vwap_volumen_cero_witness :
  nth 1 (@calcular_vwap float _ barras_sin_volumen) nan
  = nth 1 (typical_price barras_sin_volumen) nan
  /\ @calcular_vwap_vigilado float _ barras_sin_volumen
     = Some (calcular_vwap barras_sin_volumen).
Proof.
  destruct (vwap_volumen_cero float _ Binary64Laws.laws barras_sin_volumen)
    as (Hcero & Hvig & _).
  split; [|exact Hvig].
  apply Hcero.
  - cbn. lia.
  - vm_compute. reflexivity.
Defined.

(** *** The bound by the typical prices seen so far *)

Section Cotas.

Context {T : Type} {N : Num T}.

(** Minimum and maximum as Python's [min] and [max] compute them. *)
Definition nmin (a b : T) : T := if b [<] a then b else a.
Definition nmax (a b : T) : T := if b [>] a then b else a.

(** [min(xs[0..i])] and [max(xs[0..i])]. *)
Definition prefix_min (xs : list T) (i : nat) : T :=
  match firstn (S i) xs with
  | [] => nan
  | x :: resto => fold_left nmin resto x
  end.

Definition prefix_max (xs : list T) (i : nat) : T :=
  match firstn (S i) xs with
  | [] => nan
  | x :: resto => fold_left nmax resto x
  end.

(** A value that is a number: it compares equal to itself. *)
Definition finito (x : T) : Prop := x [<=] x = true.

Definition barra_finita (b : Bar T) : Prop :=
  finito (high b) /\ finito (low b) /\ finito (close b) /\ finito (volume b).

Definition volumen_no_negativo (b : Bar T) : Prop := of_int 0 [<=] volume b = true.

(** The VWAP of row [i] lies between the least and the greatest typical
    price of rows [0..i]. *)
Definition vwap_acotado (df : list (Bar T)) (i : nat) : Prop :=
  prefix_min (typical_price df) i [<=] nth i (calcular_vwap df) nan = true
  /\ nth i (calcular_vwap df) nan [<=] prefix_max (typical_price df) i = true.

End Cotas.

Section CotasExactas.

Local Abbreviation EQ := (option Q).

Lemma exact_add (a b : Q) : (Some a : EQ) [+] Some b = Some (Qred (a + b)).
Proof. reflexivity. Qed.

Lemma exact_mul (a b : Q) : (Some a : EQ) [*] Some b = Some (Qred (a * b)).
Proof. reflexivity. Qed.

Lemma exact_div (a b : Q) :
  (Some a : EQ) [/] Some b = if Qeq_bool b 0 then None else Some (Qred (a / b)).
Proof. reflexivity. Qed.

Lemma exact_lt (a b : Q) : (Some a : EQ) [<] Some b = qlt_bool a b.
Proof. reflexivity. Qed.

Lemma exact_le (a b : Q) : (Some a : EQ) [<=] Some b = Qle_bool a b.
Proof. reflexivity. Qed.

Lemma exact_of_int (z : Z) : (of_int z : EQ) = Some (inject_Z z).
Proof. reflexivity. Qed.

Lemma exact_finito (x : EQ) : finito x -> exists q, x = Some q.
Proof. destruct x as [q|]; [eauto | discriminate]. Qed.

Lemma exact_positive_nonzero (w : Q) : 0 < w -> Qeq_bool w 0 = false.
Proof.
  intros Hw. apply not_true_iff_false. rewrite Qeq_bool_iff. intros E.
  rewrite E in Hw. revert Hw. apply Qlt_irrefl.
Qed.

Definition inyectar (r : Q * Q) : EQ * EQ := (Some (fst r), Some (snd r)).

(** One iteration keeps the weighted sum between [lo] and [hi] times
    the weight, so the quotient stays between [lo] and [hi]. *)
Lemma vwap_bucle_exact_bounds (lo hi : Q) (rows : list (Q * Q)) :
  Forall (fun r => lo <= fst r /\ fst r <= hi /\ 0 <= snd r) rows ->
  forall P W : Q,
    0 <= W -> lo * W <= P -> P <= hi * W ->
    Forall (fun x : EQ => exists q, x = Some q /\ lo <= q /\ q <= hi)
           (vwap_bucle (Some P) (Some W) (map inyectar rows)).
Proof.
  induction 1 as [|[tp v] rows (Hlo & Hhi & Hv) _ IH]; intros P W HW HloP HPhi.
  - constructor.
  - cbn [map inyectar fst snd vwap_bucle] in *.
    rewrite exact_mul, !exact_add, exact_of_int, exact_lt.
    set (P' := Qred (P + Qred (tp * v))).
    set (W' := Qred (W + v)).
    assert (HP' : P' == P + tp * v) by (unfold P'; rewrite !Qred_correct; reflexivity).
    assert (HW' : W' == W + v) by (unfold W'; apply Qred_correct).
    assert (Hlov : lo * v <= tp * v) by (apply Qmult_le_compat_r; assumption).
    assert (Hhiv : tp * v <= hi * v) by (apply Qmult_le_compat_r; assumption).
    assert (HW0 : 0 <= W') by (rewrite HW'; lra).
    assert (HloP' : lo * W' <= P') by (rewrite HP', HW'; lra).
    assert (HP'hi : P' <= hi * W') by (rewrite HP', HW'; lra).
    constructor; [|apply IH; assumption].
    destruct (qlt_bool (inject_Z 0) W') eqn:Hpos.
    + apply qlt_bool_iff in Hpos. change (inject_Z 0) with 0 in Hpos.
      rewrite exact_div, (exact_positive_nonzero _ Hpos).
      eexists. split; [reflexivity|]. rewrite Qred_correct. split.
      * apply Qle_shift_div_l; assumption.
      * apply Qle_shift_div_r; assumption.
    + eauto.
Qed.

Lemma fold_nmin_exact (qs : list Q) :
  forall q0 : Q,
    exists m, fold_left nmin (map Some qs : list EQ) (Some q0) = Some m
              /\ m <= q0 /\ Forall (fun q => m <= q) qs.
Proof.
  induction qs as [|a qs IH]; intros q0; cbn [map fold_left].
  - exists q0. repeat split; [apply Qle_refl | constructor].
  - unfold nmin at 2. rewrite exact_lt.
    destruct (qlt_bool a q0) eqn:Hlt.
    + apply qlt_bool_iff in Hlt.
      destruct (IH a) as (m & E & Hm & HF). exists m.
      repeat split; [exact E | lra | constructor; assumption].
    + assert (Hge : q0 <= a).
      { apply Qnot_lt_le. rewrite <- qlt_bool_iff. congruence. }
      destruct (IH q0) as (m & E & Hm & HF). exists m.
      repeat split; [exact E | exact Hm | constructor; [lra | assumption]].
Qed.

Lemma fold_nmax_exact (qs : list Q) :
  forall q0 : Q,
    exists m, fold_left nmax (map Some qs : list EQ) (Some q0) = Some m
              /\ q0 <= m /\ Forall (fun q => q <= m) qs.
Proof.
  induction qs as [|a qs IH]; intros q0; cbn [map fold_left].
  - exists q0. repeat split; [apply Qle_refl | constructor].
  - unfold nmax at 2. rewrite exact_lt.
    destruct (qlt_bool q0 a) eqn:Hlt.
    + apply qlt_bool_iff in Hlt.
      destruct (IH a) as (m & E & Hm & HF). exists m.
      repeat split; [exact E | lra | constructor; assumption].
    + assert (Hge : a <= q0).
      { apply Qnot_lt_le. rewrite <- qlt_bool_iff. congruence. }
      destruct (IH q0) as (m & E & Hm & HF). exists m.
      repeat split; [exact E | exact Hm | constructor; [lra | assumption]].
Qed.

Lemma exact_precio_tipico (b : Bar EQ) :
  barra_finita b -> exists tp, precio_tipico b = Some tp.
Proof.
  intros (Hh & Hl & Hc & _).
  apply exact_finito in Hh, Hl, Hc.
  destruct Hh as (h & Eh), Hl as (l & El), Hc as (c & Ec).
  unfold precio_tipico. rewrite Eh, El, Ec, !exact_add, exact_of_int, exact_div.
  eexists. reflexivity.
Qed.

Lemma exact_volumen (b : Bar EQ) :
  volumen_no_negativo b -> exists v, volume b = Some v /\ 0 <= v.
Proof.
  unfold volumen_no_negativo. destruct (volume b) as [v|]; [|discriminate].
  rewrite exact_of_int, exact_le, Qle_bool_iff. eauto.
Qed.

(** Finite bars with non-negative volumes give rational rows. *)
Lemma filas_exactas (df : list (Bar EQ)) :
  Forall barra_finita df -> Forall volumen_no_negativo df ->
  exists rows : list (Q * Q),
    map (fun b => (precio_tipico b, volume b)) df = map inyectar rows
    /\ Forall (fun r => 0 <= snd r) rows.
Proof.
  induction 1 as [|b df Hb _ IH]; intros Hvol.
  - exists []. split; constructor.
  - inversion Hvol as [|? ? Hv Hvols]; subst.
    destruct (IH Hvols) as (rows & E & Hrows).
    destruct (exact_precio_tipico b Hb) as (tp & Etp).
    destruct (exact_volumen b Hv) as (v & Ev & Hv0).
    exists ((tp, v) :: rows). split.
    + cbn [map]. rewrite E, Etp, Ev. reflexivity.
    + constructor; assumption.
Qed.

End CotasExactas.

(** One bar with high 2, low 1, close 2 and volume 11. *)
Definition barra_redondeo {T : Type} {N : Num T} : list (Bar T) :=
  [{| timestamp := 1; open := of_int 2; high := of_int 2; low := of_int 1;
      close := of_int 2; volume := of_int 11; datetime := 1; symbol := "X" |}].

(** C5 (in exact arithmetic).  Over the rationals, for every sequence of
    finite bars whose volumes are all non-negative and every row [i], the
    value of [calcular_vwap] at row [i] lies between the minimum and the
    maximum of the typical prices [(high + low + close) / 3] of rows
    [0..i]. *)
Theorem vwap_acotado_exacto (df : list (Bar (option Q))) (i : nat) :
  Forall barra_finita df ->
  Forall volumen_no_negativo df ->
  (i < length df)%nat ->
  vwap_acotado df i.
Proof.
  intros Hfin Hvol Hi.
  destruct (filas_exactas df Hfin Hvol) as (rows & E & Hrows).
  assert (Hlen : length rows = length df).
  { apply (f_equal (@length _)) in E. rewrite !length_map in E. congruence. }
  assert (Htp : typical_price df = map Some (map fst rows)).
  { transitivity (map fst (map (fun b => (precio_tipico b, volume b)) df)).
    - rewrite map_map. reflexivity.
    - rewrite E, !map_map. reflexivity. }
  assert (Hvw : nth i (calcular_vwap df) nan
                = nth i (vwap_bucle (of_int 0) (of_int 0)
                           (map inyectar (firstn (S i) rows))) nan).
  { unfold calcular_vwap. rewrite filas_vwap, E, <- firstn_map, vwap_bucle_firstn.
    rewrite nth_firstn. destruct (Nat.ltb_spec i (S i)); [reflexivity | lia]. }
  unfold vwap_acotado, prefix_min, prefix_max.
  rewrite Hvw, Htp, !firstn_map.
  assert (Hpre : Forall (fun r => 0 <= snd r) (firstn (S i) rows)).
  { rewrite <- (firstn_skipn (S i) rows) in Hrows. apply Forall_app in Hrows. tauto. }
  assert (Hlpre : length (firstn (S i) rows) = S i) by (rewrite length_firstn; lia).
  destruct (firstn (S i) rows) as [|r0 rs]; [discriminate|].
  set (x := nth i (vwap_bucle (of_int 0) (of_int 0) (map inyectar (r0 :: rs))) nan).
  cbn [map].
  destruct (fold_nmin_exact (map fst rs) (fst r0)) as (m & Em & Hm0 & Hm).
  destruct (fold_nmax_exact (map fst rs) (fst r0)) as (M & EM & HM0 & HM).
  rewrite Em, EM.
  assert (Hrango : Forall (fun r => m <= fst r /\ fst r <= M /\ 0 <= snd r) (r0 :: rs)).
  { inversion Hpre as [|? ? Hv0 Hvs]; subst.
    constructor; [tauto|].
    rewrite Forall_map in Hm, HM.
    rewrite Forall_forall in *. intros r Hr. auto. }
  pose proof (vwap_bucle_exact_bounds m M (r0 :: rs) Hrango 0 0) as Hb.
  rewrite Forall_forall in Hb.
  destruct (Hb ltac:(lra) ltac:(lra) ltac:(lra) x) as (q & Eq & Hq1 & Hq2).
  { apply nth_In. rewrite vwap_bucle_length, length_map. lia. }
  rewrite Eq, !exact_le, !Qle_bool_iff. split; assumption.
Qed.

Lemma vwap_acotado_exacto_witness :
  @vwap_acotado (option Q) _ barras_sin_volumen 2.
Proof.
  apply vwap_acotado_exacto.
  - repeat constructor.
  - repeat constructor.
  - cbn. lia.
Defined.

(** C5 fails in binary64, on a single bar: the typical price of
    the bar with high 2, low 1, close 2 is 1.6666666666666667, and with
    volume 11 the quotient [(tp * 11) / 11] is 1.666666666666667, one unit
    in the last place above it. *)
Lemma vwap_acotado_falla_binary64 :
  Forall barra_finita (@barra_redondeo float _)
  /\ Forall volumen_no_negativo (@barra_redondeo float _)
  /\ (0 < length (@barra_redondeo float _))%nat
  /\ ~ @vwap_acotado float _ barra_redondeo 0.
Proof.
  split; [|split; [|split]].
  - repeat constructor.
  - repeat constructor.
  - cbn. lia.
  - intros [_ H]. vm_compute in H. discriminate.
Qed.

(** ** The columns of [calcular_indicadores] *)

Section Columnas.

Context {T : Type} {N : Num T}.

Lemma zip_with_length {A B C : Type} (f : A -> B -> C) (xs : list A) :
  forall ys, length (zip_with f xs ys) = Nat.min (length xs) (length ys).
Proof.
  induction xs as [|x xs IH]; intros [|y ys]; cbn; [reflexivity ..|].
  rewrite IH. reflexivity.
Qed.

Lemma nth_zip_with {A B C : Type} (f : A -> B -> C) (xs : list A) :
  forall (ys : list B) (i : nat) (dx : A) (dy : B) (dz : C),
    (i < length xs)%nat -> (i < length ys)%nat ->
    nth i (zip_with f xs ys) dz = f (nth i xs dx) (nth i ys dy).
Proof.
  induction xs as [|x xs IH]; intros [|y ys] i dx dy dz Hx Hy; cbn in Hx, Hy; try lia.
  destruct i as [|i]; cbn; [reflexivity|]. apply IH; lia.
Qed.

Lemma nth_0_shift1 (xs : list T) : nth 0 (shift1 xs) nan = nan.
Proof. destruct xs; reflexivity. Qed.

(** A crossover column is false in its first row when the comparison of
    the shifted columns is false on [nan]. *)
Lemma cruce_fila_0 (f : T -> T -> bool) (ahora : list bool) (xs ys : list T) :
  f nan nan = false ->
  nth 0 (zip_with andb ahora (zip_with f (shift1 xs) (shift1 ys))) false = false.
Proof.
  intros Hf. destruct ahora as [|a ahora], xs as [|x xs], ys as [|y ys];
    try reflexivity.
  cbn. rewrite Hf. apply andb_false_r.
Qed.

Lemma nth_0_zip_andb_false (xs ys : list bool) :
  nth 0 xs false = false -> nth 0 (zip_with andb xs ys) false = false.
Proof.
  destruct xs as [|x xs], ys as [|y ys]; try reflexivity.
  cbn. intros ->. reflexivity.
Qed.

(** The two combined columns are never true in the same row. *)
Lemma combinadas_excluyentes (alc baj sobre : list bool) :
  forall i,
    nth i (zip_with andb alc sobre) false
    && nth i (zip_with andb baj (map negb sobre)) false = false.
Proof.
  revert alc baj. induction sobre as [|p sobre IH]; intros alc baj i.
  - destruct alc, i; reflexivity.
  - destruct alc as [|a alc].
    + destruct i; reflexivity.
    + destruct baj as [|b baj].
      * destruct i; cbn; apply andb_false_r.
      * destruct i as [|i]; cbn.
        -- destruct a, b, p; reflexivity.
        -- apply IH.
Qed.

Lemma nth_error_combine_seq {A : Type} (l : list A) :
  forall (a i : nat),
    nth_error (combine (seq a (length l)) l) i
    = option_map (fun x => ((a + i)%nat, x)) (nth_error l i).
Proof.
  induction l as [|x l IH]; intros a i; cbn.
  - destruct i; reflexivity.
  - destruct i as [|i]; cbn.
    + rewrite Nat.add_0_r. reflexivity.
    + rewrite IH. rewrite Nat.add_succ_r. reflexivity.
Qed.

End Columnas.

Section Indicadores.

Context {T : Type} {N : Num T}.
Variable talib : TALib T.
Variable self : Estrategia.

(** What a row of the annotated frame holds, column by column. *)
Lemma calcular_indicadores_fila
  (df : list (Bar T)) (filas : list (Fila T)) (i : nat) (f : Fila T) :
  calcular_indicadores talib self df = Some filas ->
  nth_error filas i = Some f ->
  let c_close := map close df in
  let er := EMA talib c_close (periodo_rapida self) in
  let el := EMA talib c_close (periodo_lenta self) in
  let vw := calcular_vwap df in
  let sobre := zip_with (fun c v => c [>] v) c_close vw in
  let alc_emas :=
    zip_with andb (zip_with (fun r l => r [>] l) er el)
      (zip_with (fun r l => r [<=] l) (shift1 er) (shift1 el)) in
  let baj_emas :=
    zip_with andb (zip_with (fun r l => r [<] l) er el)
      (zip_with (fun r l => r [>=] l) (shift1 er) (shift1 el)) in
  (i < length df)%nat /\ length er = length df /\ length el = length df
  /\ nth_error df i = Some (bar f)
  /\ ema_rapida f = nth i er nan /\ ema_lenta f = nth i el nan
  /\ vwap f = nth i vw nan
  /\ cruce_alcista_emas f = nth i alc_emas false
  /\ cruce_bajista_emas f = nth i baj_emas false
  /\ precio_sobre_vwap f = nth i sobre false
  /\ cruce_alcista_vwap f
     = nth i (zip_with andb (zip_with (fun c v => c [>] v) c_close vw)
                (zip_with (fun c v => c [<=] v) (shift1 c_close) (shift1 vw))) false
  /\ cruce_bajista_vwap f
     = nth i (zip_with andb (zip_with (fun c v => c [<] v) c_close vw)
                (zip_with (fun c v => c [>=] v) (shift1 c_close) (shift1 vw))) false
  /\ cruce_alcista f = nth i (zip_with andb alc_emas sobre) false
  /\ cruce_bajista f = nth i (zip_with andb baj_emas (map negb sobre)) false
  /\ tendencia f
     = nth i (zip_with clasificar
                (zip_with andb (zip_with (fun r l => r [>] l) er el)
                   (zip_with (fun c v => c [>] v) c_close vw))
                (zip_with andb (zip_with (fun r l => r [<] l) er el)
                   (zip_with (fun c v => c [<] v) c_close vw))) NEUTRAL.
Proof.
  intros H Hf. unfold calcular_indicadores in H.
  destruct (MACD talib (map close df)) as [[c_macd c_signal] c_hist].
  destruct (forallb _ _) eqn:Hlen; [|discriminate].
  injection H as <-.
  rewrite nth_error_map, nth_error_combine_seq in Hf.
  destruct (nth_error df i) as [b|] eqn:Hb; [|discriminate].
  cbn [option_map Nat.add] in Hf. injection Hf as <-.
  cbn [forallb] in Hlen. rewrite !andb_true_iff, !Nat.eqb_eq in Hlen.
  assert (Hi : (i < length df)%nat) by (apply nth_error_Some; congruence).
  cbn zeta. cbn [bar ema_rapida ema_lenta vwap cruce_alcista_emas cruce_bajista_emas
                 precio_sobre_vwap cruce_alcista_vwap cruce_bajista_vwap
                 cruce_alcista cruce_bajista tendencia].
  repeat split; try reflexivity; try tauto; try (symmetry; tauto).
Qed.

Lemma calcular_indicadores_length (df : list (Bar T)) (filas : list (Fila T)) :
  calcular_indicadores talib self df = Some filas -> length filas = length df.
Proof.
  intros H. unfold calcular_indicadores in H.
  destruct (MACD talib (map close df)) as [[c_macd c_signal] c_hist].
  destruct (forallb _ _); [|discriminate].
  injection H as <-.
  rewrite length_map, length_combine, length_seq. apply Nat.min_id.
Qed.

(** The frame is annotated whenever TA-Lib returns columns of the
    length of its input, as it does. *)
Lemma calcular_indicadores_total (df : list (Bar T)) :
  (forall xs p, length (EMA talib xs p) = length xs) ->
  (forall xs p, length (RSI talib xs p) = length xs) ->
  (forall xs, let '(a, b, c) := MACD talib xs in
              length a = length xs /\ length b = length xs /\ length c = length xs) ->
  exists filas, calcular_indicadores talib self df = Some filas.
Proof.
  intros HE HR HM. unfold calcular_indicadores.
  specialize (HM (map close df)).
  destruct (MACD talib (map close df)) as [[c_macd c_signal] c_hist].
  destruct HM as (H1 & H2 & H3).
  cbn [forallb]. rewrite !HE, HR, H1, H2, H3, !length_map, !Nat.eqb_refl.
  cbn [andb]. eexists. reflexivity.
Qed.

End Indicadores.

(** ** Properties of [calcular_indicadores] *)

(** Seven hourly bars of one instrument; prices fall, rise and fall again. *)
Definition barras_ejemplo {T : Type} {N : Num T} : list (Bar T) :=
  map (fun q : Z * Z =>
         let (t, c) := q in
         {| timestamp := t; open := of_int c; high := of_int c; low := of_int c;
            close := of_int c; volume := of_int 1; datetime := t; symbol := "WLD/USDT" |})
      [(1, 10); (2, 9); (3, 8); (4, 12); (5, 13); (6, 7); (7, 6)]%Z.

(** A strategy with short periods, so that seven bars show crossovers. *)
Definition estrategia_ejemplo : Estrategia :=
  {| symbols := ["WLD/USDT"%string]; timeframe := "1h";
     periodo_rapida := 2; periodo_lenta := 3 |}.

Definition filas_ejemplo : list (Fila float) :=
  match calcular_indicadores talib_ref estrategia_ejemplo barras_ejemplo with
  | Some filas => filas
  | None => []
  end.

Lemma filas_ejemplo_ok :
  calcular_indicadores talib_ref estrategia_ejemplo barras_ejemplo = Some filas_ejemplo.
Proof. vm_compute. reflexivity. Qed.

(** On the example the fast EMA crosses above the slow one in row 3 and
    below it in row 5, and the first rows have no EMA. *)
Example filas_ejemplo_cruces :
  map (fun f => (cruce_alcista f, cruce_bajista f, tendencia f)) filas_ejemplo
  = [(false, false, NEUTRAL); (false, false, NEUTRAL); (false, false, BAJISTA);
     (true, false, ALCISTA); (false, false, ALCISTA); (false, true, BAJISTA);
     (false, false, BAJISTA)].
Proof. vm_compute. reflexivity. Qed.

(** C6.  For every non-empty bar sequence, row 0 of the frame annotated by
    [calcular_indicadores] exists and has all four crossover flags false
    (bullish and bearish EMA cross, bullish and bearish price-vs-VWAP
    cross), because the shifted columns hold [nan] there; hence the two
    combined flags are false in row 0 as well. *)
Theorem cruces_falsos_en_fila_0
  (T : Type) (N : Num T) (L : NumLaws T) (talib : TALib T) (self : Estrategia)
  (df : list (Bar T)) (filas : list (Fila T)) :
  calcular_indicadores talib self df = Some filas ->
  df <> [] ->
  exists f, nth_error filas 0 = Some f
            /\ cruce_alcista_emas f = false /\ cruce_bajista_emas f = false
            /\ cruce_alcista_vwap f = false /\ cruce_bajista_vwap f = false
            /\ cruce_alcista f = false /\ cruce_bajista f = false.
Proof.
  intros H Hne.
  pose proof (calcular_indicadores_length talib self df filas H) as Hlen.
  destruct filas as [|f filas].
  { destruct df; [contradiction | discriminate]. }
  exists f. split; [reflexivity|].
  destruct (calcular_indicadores_fila talib self df (f :: filas) 0 f H eq_refl)
    as (_ & _ & _ & _ & _ & _ & _ & Hae & Hbe & _ & Hav & Hbv & Ha & Hb & _).
  assert (Hae0 : cruce_alcista_emas f = false).
  { rewrite Hae. apply cruce_fila_0, nle_nan_l. }
  assert (Hbe0 : cruce_bajista_emas f = false).
  { rewrite Hbe. apply (cruce_fila_0 (fun r l => r [>=] l)), nle_nan_l. }
  repeat split.
  - exact Hae0.
  - exact Hbe0.
  - rewrite Hav. apply cruce_fila_0, nle_nan_l.
  - rewrite Hbv. apply (cruce_fila_0 (fun c v => c [>=] v)), nle_nan_l.
  - rewrite Ha. apply nth_0_zip_andb_false. rewrite <- Hae. exact Hae0.
  - rewrite Hb. apply nth_0_zip_andb_false. rewrite <- Hbe. exact Hbe0.
Qed.

Lemma cruces_falsos_en_fila_0_witness :
  exists f, nth_error filas_ejemplo 0 = Some f
            /\ cruce_alcista_emas f = false /\ cruce_bajista_emas f = false
            /\ cruce_alcista_vwap f = false /\ cruce_bajista_vwap f = false
            /\ cruce_alcista f = false /\ cruce_bajista f = false.
Proof.
  apply (cruces_falsos_en_fila_0 float _ Binary64Laws.laws talib_ref
           estrategia_ejemplo barras_ejemplo filas_ejemplo).
  - exact filas_ejemplo_ok.
  - discriminate.
Defined.

(** C7.  In every row of the frame annotated by [calcular_indicadores],
    the combined bullish flag [cruce_alcista] and the combined bearish flag
    [cruce_bajista] are not both true: the first requires
    [precio_sobre_vwap], the second its negation. *)
Theorem cruces_combinados_excluyentes
  (T : Type) (N : Num T) (talib : TALib T) (self : Estrategia)
  (df : list (Bar T)) (filas : list (Fila T)) (i : nat) (f : Fila T) :
  calcular_indicadores talib self df = Some filas ->
  nth_error filas i = Some f ->
  cruce_alcista f && cruce_bajista f = false
  /\ cruce_alcista f = cruce_alcista_emas f && precio_sobre_vwap f
  /\ cruce_bajista f = cruce_bajista_emas f && negb (precio_sobre_vwap f).
Proof.
  intros H Hf.
  destruct (calcular_indicadores_fila talib self df filas i f H Hf)
    as (Hi & Her & Hel & _ & _ & _ & _ & Hae & Hbe & Hs & _ & _ & Ha & Hb & _).
  split; [rewrite Ha, Hb; apply combinadas_excluyentes|].
  assert (Hvw : length (calcular_vwap df) = length df) by apply calcular_vwap_length.
  assert (Hsobre : (i < length (zip_with (fun c v : T => c [>] v)
                                  (map close df) (calcular_vwap df)))%nat).
  { rewrite zip_with_length, length_map, Hvw. lia. }
  split.
  - rewrite Ha, Hae, Hs. apply nth_zip_with; [|exact Hsobre].
    rewrite !zip_with_length. unfold shift1.
    rewrite !length_firstn. cbn [length]. lia.
  - rewrite Hb, Hbe, Hs.
    rewrite (nth_zip_with andb _ _ i false false false).
    + rewrite (nth_indep (map negb _) false (negb false))
        by (rewrite length_map; exact Hsobre).
      rewrite map_nth. reflexivity.
    + rewrite !zip_with_length. unfold shift1.
      rewrite !length_firstn. cbn [length]. lia.
    + rewrite length_map. exact Hsobre.
Qed.

Lemma cruces_combinados_excluyentes_witness :
  exists f, nth_error filas_ejemplo 3 = Some f
            /\ cruce_alcista f = true /\ cruce_bajista f = false
            /\ cruce_alcista f && cruce_bajista f = false.
Proof.
  eexists. split; [vm_compute; reflexivity|].
  split; [reflexivity|]. split; [reflexivity|].
  eapply (cruces_combinados_excluyentes float _ talib_ref estrategia_ejemplo
            barras_ejemplo filas_ejemplo 3).
  - exact filas_ejemplo_ok.
  - vm_compute. reflexivity.
Defined.

(** C8.  In every row of the frame annotated by [calcular_indicadores]
    where the fast EMA or the slow EMA is [nan], the trend is [NEUTRAL]. *)
Theorem tendencia_neutral_sin_ema
  (T : Type) (N : Num T) (L : NumLaws T) (talib : TALib T) (self : Estrategia)
  (df : list (Bar T)) (filas : list (Fila T)) (i : nat) (f : Fila T) :
  calcular_indicadores talib self df = Some filas ->
  nth_error filas i = Some f ->
  ema_rapida f = nan \/ ema_lenta f = nan ->
  tendencia f = NEUTRAL.
Proof.
  intros H Hf Hnan.
  destruct (calcular_indicadores_fila talib self df filas i f H Hf)
    as (Hi & Her & Hel & _ & Hr & Hl & _ & _ & _ & _ & _ & _ & _ & _ & Ht).
  assert (Hvw : length (calcular_vwap df) = length df) by apply calcular_vwap_length.
  rewrite Ht.
  rewrite (nth_zip_with clasificar _ _ i false false NEUTRAL)
    by (rewrite !zip_with_length, length_map; lia).
  rewrite !(nth_zip_with andb _ _ i false false false)
    by (rewrite !zip_with_length, ?length_map; lia).
  rewrite (nth_zip_with (fun r l : T => r [>] l) _ _ i nan nan false) by lia.
  rewrite (nth_zip_with (fun r l : T => r [<] l) _ _ i nan nan false) by lia.
  rewrite <- Hr, <- Hl.
  destruct Hnan as [-> | ->].
  - rewrite nlt_nan_r, nlt_nan_l. reflexivity.
  - rewrite nlt_nan_l, nlt_nan_r. reflexivity.
Qed.

Lemma tendencia_neutral_sin_ema_witness :
  exists f, nth_error filas_ejemplo 1 = Some f
            /\ ema_rapida f = 9.5%float /\ ema_lenta f = nan
            /\ tendencia f = NEUTRAL.
Proof.
  eexists. split; [vm_compute; reflexivity|].
  split; [reflexivity|]. split; [reflexivity|].
  eapply (tendencia_neutral_sin_ema float _ Binary64Laws.laws talib_ref
            estrategia_ejemplo barras_ejemplo filas_ejemplo 1).
  - exact filas_ejemplo_ok.
  - vm_compute. reflexivity.
  - right. reflexivity.
Defined.

(** ** Properties of [generar_señales] *)

Section Escaneo.

Context {T : Type} {N : Num T}.

(** The signals one row emits. *)
Definition emitir (fila : Fila T) : list (Señal T) :=
  if cruce_alcista fila then [señal_de COMPRA fila]
  else if cruce_bajista fila then [señal_de VENTA fila]
  else [].

Lemma señales_paso_emitir (señales : list (Señal T)) (fila : Fila T) :
  señales_paso señales fila = señales ++ emitir fila.
Proof.
  unfold señales_paso, emitir.
  destruct (cruce_alcista fila); [reflexivity|].
  destruct (cruce_bajista fila); [reflexivity|].
  symmetry. apply app_nil_r.
Qed.

Lemma fold_señales_paso (df : list (Fila T)) :
  forall señales, fold_left señales_paso df señales = señales ++ flat_map emitir df.
Proof.
  induction df as [|fila df IH]; intros señales; cbn [fold_left flat_map].
  - symmetry. apply app_nil_r.
  - rewrite IH, señales_paso_emitir, <- app_assoc. reflexivity.
Qed.

Lemma generar_señales_flat_map (df : list (Fila T)) :
  generar_señales df = flat_map emitir df.
Proof. unfold generar_señales. rewrite fold_señales_paso. reflexivity. Qed.

Lemma emitir_fechas_subseq (df : list (Fila T)) :
  Subseq (map s_datetime (flat_map emitir df)) (map (fun f => datetime (bar f)) df).
Proof.
  induction df as [|fila df IH]; cbn [flat_map map]; [constructor|].
  unfold emitir at 1.
  destruct (cruce_alcista fila); [|destruct (cruce_bajista fila)]; cbn [app map].
  - apply Subseq_take, IH.
  - apply Subseq_take, IH.
  - apply Subseq_skip, IH.
Qed.

End Escaneo.

(** A row in which both combined flags are set, as no frame of
    [calcular_indicadores] has. *)
Definition fila_ambas : Fila float :=
  {| bar := {| timestamp := 1; open := 10; high := 10; low := 10; close := 10;
               volume := 1; datetime := 1; symbol := "X" |};
     ema_rapida := 10; ema_lenta := 10; vwap := 10; diferencia_emas := 0;
     precio_vs_vwap := 0;
     cruce_alcista_emas := true; cruce_bajista_emas := true;
     precio_sobre_vwap := true;
     cruce_alcista_vwap := false; cruce_bajista_vwap := false;
     cruce_alcista := true; cruce_bajista := true;
     tendencia := NEUTRAL;
     rsi := 50; macd := 0; macd_signal := 0; macd_hist := 0 |}%float.

(** C9.  [generar_señales] scans the rows in ascending order and emits at
    most one signal per row: a BUY signal when [cruce_alcista] is set,
    otherwise a SELL signal when [cruce_bajista] is set, otherwise nothing;
    a row with both flags set emits the BUY signal only; the signals come
    out in the order of their rows. *)
Theorem generar_senales_scan (T : Type) (N : Num T) (df : list (Fila T)) :
  generar_señales df
  = flat_map (fun fila =>
                if cruce_alcista fila then [señal_de COMPRA fila]
                else if cruce_bajista fila then [señal_de VENTA fila]
                else []) df
  /\ (forall fila,
        generar_señales (df ++ [fila])
        = generar_señales df
          ++ (if cruce_alcista fila then [señal_de COMPRA fila]
              else if cruce_bajista fila then [señal_de VENTA fila]
              else []))
  /\ (forall fila, cruce_alcista fila = true -> cruce_bajista fila = true ->
        generar_señales [fila] = [señal_de COMPRA fila])
  /\ Subseq (map s_datetime (generar_señales df)) (map (fun f => datetime (bar f)) df)
  /\ (length (generar_señales df) <= length df)%nat.
Proof.
  split; [|split; [|split; [|split]]].
  - apply generar_señales_flat_map.
  - intros fila. rewrite !generar_señales_flat_map, flat_map_app.
    cbn [flat_map]. rewrite app_nil_r. reflexivity.
  - intros fila Ha _. unfold generar_señales. cbn [fold_left].
    unfold señales_paso. rewrite Ha. reflexivity.
  - rewrite generar_señales_flat_map. apply emitir_fechas_subseq.
  - rewrite <- (length_map s_datetime), <- (length_map (fun f => datetime (bar f)) df).
    apply Subseq_length.
    rewrite generar_señales_flat_map. apply emitir_fechas_subseq.
Qed.

Lemma generar_senales_scan_witness :
  generar_señales [fila_ambas] = [señal_de COMPRA fila_ambas]
  /\ map (fun s => (tipo s, s_datetime s, precio s)) (generar_señales filas_ejemplo)
     = [(COMPRA, 4%Z, 12%float); (VENTA, 6%Z, 7%float)].
Proof.
  split.
  - apply (generar_senales_scan float _ []); reflexivity.
  - rewrite (proj1 (generar_senales_scan float _ filas_ejemplo)).
    vm_compute. reflexivity.
Defined.


(** * Further properties of the program *)

(** ** A strict comparison is asymmetric *)

Class OrderLaws (T : Type) {N : Num T} : Prop := {
  nlt_asym : forall a b : T, a [<] b = true -> b [<] a = false
}.

Module Binary64Order.

Lemma SFcompare_antisym (x y : SpecFloat.spec_float) :
  SFcompare y x = option_map CompOpp (SFcompare x y).
Proof.
  destruct x as [sx | sx | | sx mx ex], y as [sy | sy | | sy my ey];
    try destruct sx; try destruct sy; try reflexivity; cbn.
  - rewrite (Z.compare_antisym ey ex).
    destruct (ey ?= ex)%Z; cbn; try reflexivity.
    rewrite (Pos.compare_cont_antisym mx my Eq). reflexivity.
  - rewrite (Z.compare_antisym ey ex).
    destruct (ey ?= ex)%Z; cbn; try reflexivity.
    rewrite (Pos.compare_cont_antisym mx my Eq). reflexivity.
Qed.

Lemma ltb_asym (a b : float) :
  PrimFloat.ltb a b = true -> PrimFloat.ltb b a = false.
Proof.
  rewrite !ltb_spec. unfold SFltb.
  rewrite (SFcompare_antisym (Prim2SF a) (Prim2SF b)).
  destruct (SFcompare (Prim2SF a) (Prim2SF b)) as [[| |]|]; cbn; congruence.
Qed.

#[export] Instance laws : OrderLaws float.
Proof. split. exact ltb_asym. Qed.

End Binary64Order.

Module ExactOrder.

#[export] Instance laws : OrderLaws (option Q).
Proof.
  split. intros [a|] [b|]; try discriminate.
  change (qlt_bool a b = true -> qlt_bool b a = false).
  rewrite qlt_bool_iff. intros Hab.
  apply not_true_iff_false. rewrite qlt_bool_iff. intros Hba.
  apply (Qlt_irrefl a). apply Qlt_trans with b; assumption.
Qed.

End ExactOrder.

Import Binary64Order ExactOrder.

(** ** More on [calcular_vwap] *)

(** X1.  [calcular_vwap] returns one value per bar and never looks
    ahead: the values of the first [k] bars are the first [k] values, and
    bars appended to the frame leave the values already computed
    unchanged. *)
Theorem calcular_vwap_sin_anticipacion
  (T : Type) (N : Num T) (df extra : list (Bar T)) (k : nat) :
  length (calcular_vwap df) = length df
  /\ calcular_vwap (firstn k df) = firstn k (calcular_vwap df)
  /\ firstn (length df) (calcular_vwap (df ++ extra)) = calcular_vwap df.
Proof.
  split; [apply calcular_vwap_length|]. split; [apply calcular_vwap_firstn|].
  rewrite <- calcular_vwap_firstn, firstn_app, Nat.sub_diag, firstn_all.
  cbn [firstn]. rewrite app_nil_r. reflexivity.
Qed.

(** X2.  At row [i], [calcular_vwap] gives the quotient of the running
    sum of [typical_price * volume] by the running sum of [volume] when
    that volume is above zero; when the running volume is [nan] or below
    zero the guard [cumulative_volume > 0] fails as well and the row gets
    its typical price. *)
Theorem calcular_vwap_cociente
  (T : Type) (N : Num T) (L : NumLaws T) (O : OrderLaws T)
  (df : list (Bar T)) (i : nat) :
  (i < length df)%nat ->
  let cv := volumen_acumulado df i in
  let cpv :=
    fold_left nadd
      (firstn (S i)
         (map (fun b => (high b [+] low b [+] close b) [/] of_int 3 [*] volume b) df))
      (of_int 0) in
  (cv [>] of_int 0 = true -> nth i (calcular_vwap df) nan = cpv [/] cv)
  /\ (cv = nan \/ cv [<] of_int 0 = true ->
      nth i (calcular_vwap df) nan = nth i (typical_price df) nan).
Proof.
  intros Hi cv cpv. rewrite (calcular_vwap_nth df i nan Hi). cbn zeta.
  fold cv. split.
  - intros ->. reflexivity.
  - intros [E | Hneg].
    + rewrite E, nlt_nan_r. reflexivity.
    + rewrite (nlt_asym _ _ Hneg). reflexivity.
Qed.

Lemma calcular_vwap_cociente_witness :
  nth 2 (@calcular_vwap float _ barras_ejemplo) nan = 9%float.
Proof.
  destruct (calcular_vwap_cociente float _ Binary64Laws.laws Binary64Order.laws
              barras_ejemplo 2) as [Hq _].
  - cbn. lia.
  - rewrite Hq; vm_compute; reflexivity.
Defined.

(** Multiplying every volume by the same factor, as a change of the
    unit of volume does. *)
Definition escalar_volumen {T : Type} {N : Num T} (k : T) (b : Bar T) : Bar T :=
  {| timestamp := timestamp b; open := open b; high := high b; low := low b;
     close := close b; volume := volume b [*] k; datetime := datetime b;
     symbol := symbol b |}.

Section EscalaExacta.

Local Abbreviation EQ := (option Q).

Definition escalar_fila (k : Q) (r : Q * Q) : Q * Q := (fst r, Qred (snd r * k)).

Lemma vwap_bucle_escala (k : Q) (rows : list (Q * Q)) :
  0 < k ->
  forall P W P' W' : Q,
    P' == k * P -> W' == k * W ->
    vwap_bucle (Some P' : EQ) (Some W') (map inyectar (map (escalar_fila k) rows))
    = vwap_bucle (Some P) (Some W) (map inyectar rows).
Proof.
  intros Hk. induction rows as [|[tp v] rows IH]; intros P W P' W' HP HW.
  - reflexivity.
  - cbn [map inyectar escalar_fila fst snd vwap_bucle].
    rewrite !exact_mul, !exact_add, exact_of_int, !exact_lt.
    set (Pn := Qred (P + Qred (tp * v))).
    set (Wn := Qred (W + v)).
    set (Pn' := Qred (P' + Qred (tp * Qred (v * k)))).
    set (Wn' := Qred (W' + Qred (v * k))).
    assert (HPn : Pn == P + tp * v) by (unfold Pn; rewrite !Qred_correct; reflexivity).
    assert (HWn : Wn == W + v) by (unfold Wn; apply Qred_correct).
    assert (HPn' : Pn' == k * Pn).
    { unfold Pn'. rewrite !Qred_correct, HPn, HP. ring. }
    assert (HWn' : Wn' == k * Wn).
    { unfold Wn'. rewrite !Qred_correct, HWn, HW. ring. }
    rewrite (IH Pn Wn Pn' Wn' HPn' HWn'). f_equal.
    destruct (qlt_bool (inject_Z 0) Wn) eqn:Hpos.
    + apply qlt_bool_iff in Hpos. change (inject_Z 0) with 0 in Hpos.
      assert (Hpos' : 0 < Wn').
      { rewrite HWn'. apply Qmult_lt_0_compat; assumption. }
      assert (E : qlt_bool (inject_Z 0) Wn' = true) by (apply qlt_bool_iff; exact Hpos').
      rewrite E, !exact_div.
      rewrite (exact_positive_nonzero _ Hpos), (exact_positive_nonzero _ Hpos').
      f_equal. apply Qred_complete. rewrite HPn', HWn'. field.
      split; intros Hz; [rewrite Hz in Hpos | rewrite Hz in Hk];
        eapply Qlt_irrefl; eassumption.
    + assert (E : qlt_bool (inject_Z 0) Wn' = false).
      { apply not_true_iff_false. rewrite qlt_bool_iff. intros Hpos'.
        apply not_true_iff_false in Hpos. apply Hpos. apply qlt_bool_iff.
        change (inject_Z 0) with 0. rewrite HWn' in Hpos'.
        destruct (Qlt_le_dec 0 Wn) as [Hlt|Hle]; [exact Hlt|].
        exfalso. apply (Qlt_irrefl 0). apply Qlt_le_trans with (k * Wn); [exact Hpos'|].
        rewrite <- (Qmult_0_r k). apply Qmult_le_l; assumption. }
      rewrite E. reflexivity.
Qed.

End EscalaExacta.

(** X3.  In exact arithmetic the VWAP does not depend on the unit of
    volume: for finite bars with non-negative volumes, multiplying every
    volume by the same factor above zero leaves every value of
    [calcular_vwap] unchanged. *)
Theorem calcular_vwap_escala_exacta (k : Q) (df : list (Bar (option Q))) :
  0 < k ->
  Forall barra_finita df ->
  Forall volumen_no_negativo df ->
  calcular_vwap (map (escalar_volumen (Some k)) df) = calcular_vwap df.
Proof.
  intros Hk Hfin Hvol.
  destruct (filas_exactas df Hfin Hvol) as (rows & E & _).
  unfold calcular_vwap. rewrite !filas_vwap, E.
  assert (E' : map (fun b => (precio_tipico b, volume b)) (map (escalar_volumen (Some k)) df)
               = map inyectar (map (escalar_fila k) rows)).
  { rewrite !map_map.
    transitivity (map (fun b => (fst (precio_tipico b, volume b),
                                 snd (precio_tipico b, volume b) [*] Some k)) df).
    - reflexivity.
    - rewrite <- (map_map (fun b => (precio_tipico b, volume b))
                          (fun p => (fst p, snd p [*] Some k))).
      rewrite E, map_map. reflexivity. }
  rewrite E'. apply vwap_bucle_escala; [exact Hk | ring | ring].
Qed.

Lemma calcular_vwap_escala_exacta_witness :
  @calcular_vwap (option Q) _ (map (escalar_volumen (Some (1000 # 1))) barras_ejemplo)
  = calcular_vwap barras_ejemplo.
Proof.
  apply calcular_vwap_escala_exacta.
  - reflexivity.
  - repeat constructor.
  - repeat constructor.
Defined.

(** ** More on [calcular_indicadores] *)

Section FilasLocales.

Context {T : Type} {N : Num T}.

Lemma nth_S_shift1 (xs : list T) (i : nat) (d : T) :
  (S i < length xs)%nat -> nth (S i) (shift1 xs) d = nth i xs d.
Proof.
  intros Hi. unfold shift1. rewrite nth_firstn.
  destruct (Nat.ltb_spec (S i) (length xs)); [reflexivity | lia].
Qed.

Lemma shift1_length (xs : list T) : length (shift1 xs) = length xs.
Proof. unfold shift1. rewrite length_firstn. cbn [length]. lia. Qed.

Lemma skipn_nth_cons {A : Type} (xs : list A) :
  forall (a : nat) (d : A),
    (a < length xs)%nat -> skipn a xs = nth a xs d :: skipn (S a) xs.
Proof.
  induction xs as [|x xs IH]; intros a d Ha; cbn [length] in Ha; [lia|].
  destruct a as [|a]; [reflexivity|].
  cbn [skipn nth]. rewrite (IH a d) by lia. reflexivity.
Qed.

(** Reading a column by the row numbers gives the column back. *)
Lemma columna_por_indices {A B : Type} (l : list B) (xs : list A) (d : A) :
  forall a,
    (a + length l <= length xs)%nat ->
    map (fun ib : nat * B => nth (fst ib) xs d) (combine (seq a (length l)) l)
    = firstn (length l) (skipn a xs).
Proof.
  induction l as [|b l IH]; intros a Ha; cbn [length] in *; [reflexivity|].
  cbn [seq combine map fst]. rewrite (skipn_nth_cons xs a d) by lia.
  cbn [firstn]. rewrite IH by lia. reflexivity.
Qed.

Lemma columna_completa {A B : Type} (l : list B) (xs : list A) (d : A) :
  length xs = length l ->
  map (fun ib : nat * B => nth (fst ib) xs d) (combine (seq 0 (length l)) l) = xs.
Proof.
  intros Hlen. rewrite columna_por_indices by lia.
  cbn [skipn]. rewrite <- Hlen. apply firstn_all.
Qed.

Lemma filas_por_indices {B : Type} (l : list B) :
  forall a, map snd (combine (seq a (length l)) l) = l.
Proof.
  induction l as [|b l IH]; intros a; cbn; [|rewrite IH]; reflexivity.
Qed.

Variable talib : TALib T.
Variable self : Estrategia.

(** The columns of the annotated frame, read as whole columns. *)
Lemma calcular_indicadores_columnas (df : list (Bar T)) (filas : list (Fila T)) :
  calcular_indicadores talib self df = Some filas ->
  let c_close := map close df in
  let er := EMA talib c_close (periodo_rapida self) in
  let el := EMA talib c_close (periodo_lenta self) in
  map bar filas = df
  /\ map ema_rapida filas = er
  /\ map ema_lenta filas = el
  /\ map vwap filas = calcular_vwap df
  /\ map diferencia_emas filas = zip_with nsub er el
  /\ map precio_vs_vwap filas
     = zip_with (fun c v => (c [-] v) [/] v [*] of_int 100) c_close (calcular_vwap df)
  /\ map rsi filas = RSI talib c_close 14
  /\ (map macd filas, map macd_signal filas, map macd_hist filas) = MACD talib c_close.
Proof.
  intros H. cbn zeta. unfold calcular_indicadores in H.
  destruct (MACD talib (map close df)) as [[c_macd c_signal] c_hist].
  destruct (forallb _ _) eqn:Hlen; [|discriminate].
  injection H as <-.
  cbn [forallb] in Hlen. rewrite !andb_true_iff, !Nat.eqb_eq in Hlen.
  destruct Hlen as (H1 & H2 & H3 & H4 & H5 & H6 & _).
  assert (Hvw : length (calcular_vwap df) = length df) by apply calcular_vwap_length.
  cbn zeta. rewrite !map_map. cbn [bar ema_rapida ema_lenta vwap diferencia_emas
                                   precio_vs_vwap rsi macd macd_signal macd_hist].
  assert (Hcol : forall (g : nat * Bar T -> T) (xs : list T),
             (forall i b, g (i, b) = nth i xs nan) -> length xs = length df ->
             map g (combine (seq 0 (length df)) df) = xs).
  { intros g xs Hg Hxs.
    transitivity (map (fun ib : nat * Bar T => nth (fst ib) xs nan)
                      (combine (seq 0 (length df)) df)).
    - apply map_ext. intros [i b]. apply Hg.
    - apply columna_completa, Hxs. }
  repeat split.
  - transitivity (map snd (combine (seq 0 (length df)) df)).
    + apply map_ext. intros [i b]. reflexivity.
    + apply filas_por_indices.
  - apply Hcol; [reflexivity | congruence].
  - apply Hcol; [reflexivity | congruence].
  - apply Hcol; [reflexivity | congruence].
  - apply Hcol; [reflexivity|]. rewrite zip_with_length. lia.
  - apply Hcol; [reflexivity|]. rewrite zip_with_length, length_map. lia.
  - apply Hcol; [reflexivity | congruence].
  - apply injective_projections; cbn [fst snd];
      [apply injective_projections; cbn [fst snd]|];
      (apply Hcol; [reflexivity | congruence]).
Qed.

End FilasLocales.

(** The row before row [i], if any, and a value read from it: [nan] when
    there is no row before, as [shift(1)] has it. *)
Definition fila_previa {T : Type} (filas : list (Fila T)) (i : nat) : option (Fila T) :=
  match i with
  | O => None
  | S j => nth_error filas j
  end.

Definition valor_previo {T : Type} {N : Num T} (h : Fila T -> T) (p : option (Fila T)) : T :=
  match p with
  | Some g => h g
  | None => nan
  end.

Section FilaLocal.

Context {T : Type} {N : Num T}.
Variable talib : TALib T.
Variable self : Estrategia.

Lemma nth_map_nth_error {A B : Type} (h : A -> B) (l : list A) (i : nat) (x : A) (d : B) :
  nth_error l i = Some x -> nth i (map h l) d = h x.
Proof.
  intros Hx. rewrite (nth_indep _ d (h x)).
  - rewrite map_nth. f_equal. apply nth_error_nth, Hx.
  - rewrite length_map. apply nth_error_Some. congruence.
Qed.

Lemma nth_shift1_map (h : Fila T -> T) (filas : list (Fila T)) (i : nat) :
  (i < length filas)%nat ->
  nth i (shift1 (map h filas)) nan = valor_previo h (fila_previa filas i).
Proof.
  intros Hi. destruct i as [|j]; cbn [fila_previa].
  - apply nth_0_shift1.
  - rewrite nth_S_shift1 by (rewrite length_map; exact Hi).
    destruct (nth_error filas j) as [g|] eqn:Hg.
    + cbn [valor_previo]. apply nth_map_nth_error, Hg.
    + apply nth_error_None in Hg. lia.
Qed.

(** Every derived column of a row in terms of the values of that row and
    of the row before it. *)
Lemma fila_local (df : list (Bar T)) (filas : list (Fila T)) (i : nat) (f : Fila T) :
  calcular_indicadores talib self df = Some filas ->
  nth_error filas i = Some f ->
  let p := fila_previa filas i in
  let c := fun g : Fila T => close (bar g) in
  diferencia_emas f = ema_rapida f [-] ema_lenta f
  /\ precio_vs_vwap f = (c f [-] vwap f) [/] vwap f [*] of_int 100
  /\ precio_sobre_vwap f = (c f [>] vwap f)
  /\ cruce_alcista_emas f
     = (ema_rapida f [>] ema_lenta f)
       && (valor_previo ema_rapida p [<=] valor_previo ema_lenta p)
  /\ cruce_bajista_emas f
     = (ema_rapida f [<] ema_lenta f)
       && (valor_previo ema_rapida p [>=] valor_previo ema_lenta p)
  /\ cruce_alcista_vwap f
     = (c f [>] vwap f) && (valor_previo c p [<=] valor_previo vwap p)
  /\ cruce_bajista_vwap f
     = (c f [<] vwap f) && (valor_previo c p [>=] valor_previo vwap p)
  /\ cruce_alcista f = cruce_alcista_emas f && precio_sobre_vwap f
  /\ cruce_bajista f = cruce_bajista_emas f && negb (precio_sobre_vwap f)
  /\ tendencia f
     = clasificar ((ema_rapida f [>] ema_lenta f) && (c f [>] vwap f))
                  ((ema_rapida f [<] ema_lenta f) && (c f [<] vwap f)).
Proof.
  intros H Hf p c.
  destruct (calcular_indicadores_fila talib self df filas i f H Hf)
    as (Hi & _ & _ & _ & _ & _ & _ & Hae & Hbe & Hs & Hav & Hbv & Ha & Hb & Ht).
  destruct (calcular_indicadores_columnas talib self df filas H)
    as (Cbar & Cer & Cel & Cvw & Cdif & Cpv & _ & _).
  pose proof (calcular_indicadores_length talib self df filas H) as Hlen.
  assert (Ccl : map close df = map c filas).
  { rewrite <- Cbar, map_map. reflexivity. }
  rewrite <- Cer, <- Cel, <- Cvw, Ccl in *. clear Cer Cel Cvw Ccl.
  assert (Hi' : (i < length filas)%nat) by lia.
  assert (Lz : forall (A B C0 : Type) (g : A -> B -> C0) (ha : Fila T -> A) (hb : Fila T -> B)
                      (d : C0),
             nth i (zip_with g (map ha filas) (map hb filas)) d = g (ha f) (hb f)).
  { intros A B C0 g ha hb d.
    rewrite (nth_zip_with g _ _ i (ha f) (hb f) d) by (rewrite length_map; exact Hi').
    rewrite !(nth_map_nth_error _ filas i f) by exact Hf. reflexivity. }
  assert (Lp : forall (g : T -> T -> bool) (ha hb : Fila T -> T),
             nth i (zip_with g (shift1 (map ha filas)) (shift1 (map hb filas))) false
             = g (valor_previo ha p) (valor_previo hb p)).
  { intros g ha hb.
    rewrite (nth_zip_with g _ _ i nan nan false)
      by (rewrite shift1_length, length_map; exact Hi').
    rewrite !nth_shift1_map by exact Hi'. reflexivity. }
  assert (La : forall xs ys : list bool,
             (i < length xs)%nat -> (i < length ys)%nat ->
             nth i (zip_with andb xs ys) false = nth i xs false && nth i ys false).
  { intros xs ys Hx Hy. apply nth_zip_with; assumption. }
  assert (Hl1 : forall (g : T -> T -> bool) (ha hb : Fila T -> T),
             (i < length (zip_with g (map ha filas) (map hb filas)))%nat).
  { intros. rewrite zip_with_length, !length_map. lia. }
  assert (Hl2 : forall (g : T -> T -> bool) (ha hb : Fila T -> T),
             (i < length (zip_with g (shift1 (map ha filas)) (shift1 (map hb filas))))%nat).
  { intros. rewrite zip_with_length, !shift1_length, !length_map. lia. }
  assert (Es : precio_sobre_vwap f = (c f [>] vwap f)) by (rewrite Hs, Lz; reflexivity).
  assert (Eae : cruce_alcista_emas f
                = (ema_rapida f [>] ema_lenta f)
                  && (valor_previo ema_rapida p [<=] valor_previo ema_lenta p)).
  { rewrite Hae, La, Lz, Lp by auto. reflexivity. }
  assert (Ebe : cruce_bajista_emas f
                = (ema_rapida f [<] ema_lenta f)
                  && (valor_previo ema_rapida p [>=] valor_previo ema_lenta p)).
  { rewrite Hbe, La, Lz, (Lp (fun r l => r [>=] l)) by auto. reflexivity. }
  repeat split.
  - rewrite <- (nth_map_nth_error diferencia_emas filas i f nan Hf), Cdif, Lz.
    reflexivity.
  - rewrite <- (nth_map_nth_error precio_vs_vwap filas i f nan Hf), Cpv, Lz.
    reflexivity.
  - exact Es.
  - exact Eae.
  - exact Ebe.
  - rewrite Hav, La, Lz, Lp by auto. reflexivity.
  - rewrite Hbv, La, Lz, (Lp (fun r l => r [>=] l)) by auto. reflexivity.
  - rewrite Ha, La, <- Hae, <- Hs; [reflexivity | |].
    + rewrite zip_with_length. pose proof (Hl1 (fun r l => r [>] l) ema_rapida ema_lenta).
      pose proof (Hl2 (fun r l => r [<=] l) ema_rapida ema_lenta). lia.
    + apply Hl1.
  - rewrite Hb, La.
    + rewrite <- Hbe. f_equal.
      rewrite (nth_indep _ false (negb false)) by (rewrite length_map; apply Hl1).
      rewrite map_nth, <- Hs. reflexivity.
    + rewrite zip_with_length. pose proof (Hl1 (fun r l => r [<] l) ema_rapida ema_lenta).
      pose proof (Hl2 (fun r l => r [>=] l) ema_rapida ema_lenta). lia.
    + rewrite length_map. apply Hl1.
  - rewrite Ht.
    rewrite (nth_zip_with clasificar _ _ i false false NEUTRAL).
    + rewrite !La, !Lz by auto. reflexivity.
    + rewrite zip_with_length.
      pose proof (Hl1 (fun r l => r [>] l) ema_rapida ema_lenta).
      pose proof (Hl1 (fun r l => r [>] l) c vwap). lia.
    + rewrite zip_with_length.
      pose proof (Hl1 (fun r l => r [<] l) ema_rapida ema_lenta).
      pose proof (Hl1 (fun r l => r [<] l) c vwap). lia.
Qed.

End FilaLocal.

(** X4.  When [calcular_indicadores] returns a frame, the frame has one
    row per input bar, holding that bar, in order; its [vwap] column is
    [calcular_vwap] of the bars, and its EMA, RSI and MACD columns are the
    TA-Lib results on the close prices, with the periods of [self], 14 for
    the RSI.  The frame is returned exactly when the six TA-Lib columns have
    the length of the input. *)
Theorem calcular_indicadores_marco
  (T : Type) (N : Num T) (talib : TALib T) (self : Estrategia) (df : list (Bar T)) :
  (forall filas, calcular_indicadores talib self df = Some filas ->
     length filas = length df
     /\ map bar filas = df
     /\ map vwap filas = calcular_vwap df
     /\ map ema_rapida filas = EMA talib (map close df) (periodo_rapida self)
     /\ map ema_lenta filas = EMA talib (map close df) (periodo_lenta self)
     /\ map rsi filas = RSI talib (map close df) 14
     /\ (map macd filas, map macd_signal filas, map macd_hist filas)
        = MACD talib (map close df))
  /\ (calcular_indicadores talib self df <> None <->
      Forall (fun col : list T => length col = length df)
        [EMA talib (map close df) (periodo_rapida self);
         EMA talib (map close df) (periodo_lenta self);
         RSI talib (map close df) 14;
         fst (fst (MACD talib (map close df)));
         snd (fst (MACD talib (map close df)));
         snd (MACD talib (map close df))]).
Proof.
  split.
  - intros filas H.
    destruct (calcular_indicadores_columnas talib self df filas H)
      as (Cbar & Cer & Cel & Cvw & _ & _ & Crsi & Cmacd).
    split; [eapply calcular_indicadores_length; exact H|]. tauto.
  - unfold calcular_indicadores.
    destruct (MACD talib (map close df)) as [[c_macd c_signal] c_hist].
    cbn [fst snd forallb].
    destruct (_ && _) eqn:Hlen.
    + split; [|discriminate]. intros _.
      rewrite !andb_true_iff, !Nat.eqb_eq in Hlen.
      repeat constructor; symmetry; tauto.
    + split; [congruence|]. intros HF. exfalso.
      apply not_true_iff_false in Hlen. apply Hlen.
      repeat match goal with
             | HF : Forall _ (_ :: _) |- _ => inversion HF; subst; clear HF
             end.
      rewrite !andb_true_iff, !Nat.eqb_eq. repeat split; congruence.
Qed.

Lemma calcular_indicadores_marco_witness :
  length filas_ejemplo = length (@barras_ejemplo float _)
  /\ map bar filas_ejemplo = barras_ejemplo
  /\ map vwap filas_ejemplo = calcular_vwap barras_ejemplo.
Proof.
  destruct (proj1 (calcular_indicadores_marco float _ talib_ref estrategia_ejemplo
                     barras_ejemplo) filas_ejemplo filas_ejemplo_ok)
    as (H1 & H2 & H3 & _).
  auto.
Defined.

(** X5.  Between two consecutive rows [g], [f] of the annotated frame, the
    bullish EMA cross of [f] is set exactly when the fast EMA of [f] is
    above the slow one while the fast EMA of [g] was at most the slow one;
    the bearish EMA cross is the mirror image with [<] and [>=]; the two
    price-vs-VWAP crosses compare [close] with [vwap] in the same way. *)
Theorem cruces_entre_filas
  (T : Type) (N : Num T) (talib : TALib T) (self : Estrategia)
  (df : list (Bar T)) (filas : list (Fila T)) (j : nat) (g f : Fila T) :
  calcular_indicadores talib self df = Some filas ->
  nth_error filas j = Some g ->
  nth_error filas (S j) = Some f ->
  cruce_alcista_emas f
  = (ema_rapida f [>] ema_lenta f) && (ema_rapida g [<=] ema_lenta g)
  /\ cruce_bajista_emas f
     = (ema_rapida f [<] ema_lenta f) && (ema_rapida g [>=] ema_lenta g)
  /\ cruce_alcista_vwap f
     = (close (bar f) [>] vwap f) && (close (bar g) [<=] vwap g)
  /\ cruce_bajista_vwap f
     = (close (bar f) [<] vwap f) && (close (bar g) [>=] vwap g).
Proof.
  intros H Hg Hf.
  destruct (fila_local talib self df filas (S j) f H Hf)
    as (_ & _ & _ & Hae & Hbe & Hav & Hbv & _).
  cbn [fila_previa] in Hae, Hbe, Hav, Hbv. rewrite Hg in Hae, Hbe, Hav, Hbv.
  cbn [valor_previo] in Hae, Hbe, Hav, Hbv. auto.
Qed.

Lemma cruces_entre_filas_witness :
  let g := nth 2 filas_ejemplo fila_ambas in
  let f := nth 3 filas_ejemplo fila_ambas in
  cruce_alcista_emas f = true
  /\ cruce_alcista_emas f
     = (ema_rapida f [>] ema_lenta f) && (ema_rapida g [<=] ema_lenta g).
Proof.
  intros g f. split; [reflexivity|].
  apply (cruces_entre_filas float _ talib_ref estrategia_ejemplo barras_ejemplo
           filas_ejemplo 2 g f filas_ejemplo_ok); vm_compute; reflexivity.
Defined.

(** X6.  In every row of the annotated frame the derived columns agree
    with the row's own values: [diferencia_emas] is fast minus slow EMA,
    [precio_vs_vwap] is [(close - vwap) / vwap * 100], [precio_sobre_vwap]
    is [close > vwap], and the trend is ALCISTA when fast > slow and
    close > vwap, else BAJISTA when fast < slow and close < vwap, else
    NEUTRAL. *)
Theorem fila_coherente
  (T : Type) (N : Num T) (talib : TALib T) (self : Estrategia)
  (df : list (Bar T)) (filas : list (Fila T)) (f : Fila T) :
  calcular_indicadores talib self df = Some filas ->
  In f filas ->
  diferencia_emas f = ema_rapida f [-] ema_lenta f
  /\ precio_vs_vwap f = (close (bar f) [-] vwap f) [/] vwap f [*] of_int 100
  /\ precio_sobre_vwap f = (close (bar f) [>] vwap f)
  /\ tendencia f
     = if (ema_rapida f [>] ema_lenta f) && (close (bar f) [>] vwap f) then ALCISTA
       else if (ema_rapida f [<] ema_lenta f) && (close (bar f) [<] vwap f) then BAJISTA
       else NEUTRAL.
Proof.
  intros H Hin. destruct (In_nth_error _ _ Hin) as (i & Hf).
  destruct (fila_local talib self df filas i f H Hf)
    as (Hd & Hp & Hs & _ & _ & _ & _ & _ & _ & Ht).
  auto.
Qed.

Lemma fila_coherente_witness :
  exists f, nth_error filas_ejemplo 3 = Some f
            /\ tendencia f = ALCISTA /\ diferencia_emas f = ema_rapida f [-] ema_lenta f.
Proof.
  eexists. split; [vm_compute; reflexivity|]. split; [reflexivity|].
  eapply (fila_coherente float _ talib_ref estrategia_ejemplo barras_ejemplo filas_ejemplo).
  - exact filas_ejemplo_ok.
  - vm_compute. do 3 right. left. reflexivity.
Defined.

(** X7.  A row of the annotated frame whose combined bullish flag is set
    has its fast EMA above the slow one and its close above the VWAP, and
    is classified ALCISTA; a row whose combined bearish flag is set has its
    fast EMA below the slow one and its close not above the VWAP, and is
    never classified ALCISTA. *)
Theorem cruce_y_tendencia
  (T : Type) (N : Num T) (talib : TALib T) (self : Estrategia)
  (df : list (Bar T)) (filas : list (Fila T)) (f : Fila T) :
  calcular_indicadores talib self df = Some filas ->
  In f filas ->
  (cruce_alcista f = true ->
   ema_rapida f [>] ema_lenta f = true /\ close (bar f) [>] vwap f = true
   /\ tendencia f = ALCISTA)
  /\ (cruce_bajista f = true ->
      ema_rapida f [<] ema_lenta f = true /\ close (bar f) [>] vwap f = false
      /\ tendencia f <> ALCISTA).
Proof.
  intros H Hin. destruct (In_nth_error _ _ Hin) as (i & Hf).
  destruct (fila_local talib self df filas i f H Hf)
    as (_ & _ & Hs & Hae & Hbe & _ & _ & Ha & Hb & Ht).
  cbn zeta in *. split.
  - rewrite Ha, Hae, Hs, !andb_true_iff. intros ((Her & _) & Hc).
    rewrite Ht, Her, Hc. auto.
  - rewrite Hb, Hbe, Hs, !andb_true_iff, negb_true_iff. intros ((Her & _) & Hc).
    split; [exact Her|]. split; [exact Hc|].
    rewrite Ht, Hc, andb_false_r. unfold clasificar.
    destruct ((ema_rapida f [<] ema_lenta f) && (close (bar f) [<] vwap f));
      intros Habs; discriminate Habs.
Qed.

Lemma cruce_y_tendencia_witness :
  let f := nth 5 filas_ejemplo fila_ambas in
  ema_rapida f [<] ema_lenta f = true /\ close (bar f) [>] vwap f = false
  /\ tendencia f <> ALCISTA.
Proof.
  intros f.
  apply (cruce_y_tendencia float _ talib_ref estrategia_ejemplo barras_ejemplo
           filas_ejemplo f filas_ejemplo_ok).
  - vm_compute. do 5 right. left. reflexivity.
  - reflexivity.
Defined.

(** X8.  In no row of the annotated frame are the bullish and the bearish
    EMA cross both set, nor the bullish and the bearish price-vs-VWAP
    cross: the fast EMA (the close) cannot be both above and below the slow
    EMA (the VWAP). *)
Theorem cruces_simples_excluyentes
  (T : Type) (N : Num T) (O : OrderLaws T) (talib : TALib T) (self : Estrategia)
  (df : list (Bar T)) (filas : list (Fila T)) (f : Fila T) :
  calcular_indicadores talib self df = Some filas ->
  In f filas ->
  cruce_alcista_emas f && cruce_bajista_emas f = false
  /\ cruce_alcista_vwap f && cruce_bajista_vwap f = false.
Proof.
  intros H Hin. destruct (In_nth_error _ _ Hin) as (i & Hf).
  destruct (fila_local talib self df filas i f H Hf)
    as (_ & _ & _ & Hae & Hbe & Hav & Hbv & _).
  cbn zeta in *. rewrite Hae, Hbe, Hav, Hbv. split.
  - destruct (ema_rapida f [<] ema_lenta f) eqn:E.
    + rewrite (nlt_asym _ _ E). reflexivity.
    + cbn. apply andb_false_r.
  - destruct (close (bar f) [<] vwap f) eqn:E.
    + rewrite (nlt_asym _ _ E). reflexivity.
    + cbn. apply andb_false_r.
Qed.

Lemma cruces_simples_excluyentes_witness :
  let f := nth 3 filas_ejemplo fila_ambas in
  cruce_alcista_emas f = true
  /\ cruce_alcista_emas f && cruce_bajista_emas f = false.
Proof.
  intros f. split; [reflexivity|].
  apply (cruces_simples_excluyentes float _ Binary64Order.laws talib_ref
           estrategia_ejemplo barras_ejemplo filas_ejemplo f filas_ejemplo_ok).
  vm_compute. do 3 right. left. reflexivity.
Defined.

(** X9.  A row of the annotated frame raises no crossover flag and emits no
    signal when an EMA is not available ([nan]) in that row or in the row
    before it; row 0 has no row before it. *)
Theorem sin_ema_sin_cruce
  (T : Type) (N : Num T) (L : NumLaws T) (talib : TALib T) (self : Estrategia)
  (df : list (Bar T)) (filas : list (Fila T)) (i : nat) (f : Fila T) :
  calcular_indicadores talib self df = Some filas ->
  nth_error filas i = Some f ->
  ema_rapida f = nan \/ ema_lenta f = nan
  \/ valor_previo ema_rapida (fila_previa filas i) = nan
  \/ valor_previo ema_lenta (fila_previa filas i) = nan ->
  cruce_alcista_emas f = false /\ cruce_bajista_emas f = false
  /\ cruce_alcista f = false /\ cruce_bajista f = false
  /\ generar_señales [f] = [].
Proof.
  intros H Hf Hnan.
  destruct (fila_local talib self df filas i f H Hf)
    as (_ & _ & _ & Hae & Hbe & _ & _ & Ha & Hb & _).
  cbn zeta in *.
  assert (Eae : cruce_alcista_emas f = false).
  { rewrite Hae. destruct Hnan as [E | [E | [E | E]]]; rewrite E;
      rewrite ?nlt_nan_l, ?nlt_nan_r, ?nle_nan_l, ?nle_nan_r, ?andb_false_r; reflexivity. }
  assert (Ebe : cruce_bajista_emas f = false).
  { rewrite Hbe. destruct Hnan as [E | [E | [E | E]]]; rewrite E;
      rewrite ?nlt_nan_l, ?nlt_nan_r, ?nle_nan_l, ?nle_nan_r, ?andb_false_r; reflexivity. }
  assert (Ea : cruce_alcista f = false) by (rewrite Ha, Eae; reflexivity).
  assert (Eb : cruce_bajista f = false) by (rewrite Hb, Ebe; reflexivity).
  repeat split; try assumption.
  unfold generar_señales. cbn [fold_left]. unfold señales_paso. rewrite Ea, Eb. reflexivity.
Qed.

Lemma sin_ema_sin_cruce_witness :
  let f := nth 2 filas_ejemplo fila_ambas in
  ema_rapida f = 8.5%float /\ ema_lenta f = 9%float /\ generar_señales [f] = [].
Proof.
  intros f. split; [reflexivity|]. split; [reflexivity|].
  apply (sin_ema_sin_cruce float _ Binary64Laws.laws talib_ref estrategia_ejemplo
           barras_ejemplo filas_ejemplo 2 f filas_ejemplo_ok).
  - vm_compute. reflexivity.
  - do 3 right. reflexivity.
Defined.

Lemma flat_map_vacio {A B : Type} (h : A -> list B) (l : list A) :
  (forall x, In x l -> h x = []) -> flat_map h l = [].
Proof.
  induction l as [|x l IH]; intros Hh; [reflexivity|].
  cbn [flat_map]. rewrite (Hh x (or_introl eq_refl)), IH; [reflexivity|].
  intros y Hy. apply Hh. right. exact Hy.
Qed.

(** Two bars: fewer than the slow period of [estrategia_ejemplo]. *)
Definition barras_cortas {T : Type} {N : Num T} : list (Bar T) := firstn 2 barras_ejemplo.

Definition filas_cortas : list (Fila float) :=
  match calcular_indicadores talib_ref estrategia_ejemplo barras_cortas with
  | Some filas => filas
  | None => []
  end.

Lemma filas_cortas_ok :
  calcular_indicadores talib_ref estrategia_ejemplo barras_cortas = Some filas_cortas.
Proof. vm_compute. reflexivity. Qed.

(** X10.  A frame in every row of which an EMA is unavailable, as when the
    history is shorter than the slow period, yields no signal from
    [generar_señales] and no summary from [calcular_rendimiento]. *)
Theorem historia_insuficiente
  (T : Type) (N : Num T) (L : NumLaws T) (talib : TALib T) (self : Estrategia)
  (df : list (Bar T)) (filas : list (Fila T)) :
  calcular_indicadores talib self df = Some filas ->
  Forall (fun f => ema_rapida f = nan \/ ema_lenta f = nan) filas ->
  generar_señales filas = []
  /\ calcular_rendimiento filas (generar_señales filas) = None.
Proof.
  intros H Hnan.
  assert (E : generar_señales filas = []).
  { rewrite generar_señales_flat_map.
    apply flat_map_vacio.
    intros f Hin. destruct (In_nth_error _ _ Hin) as (i & Hf).
    rewrite Forall_forall in Hnan.
    destruct (fila_local talib self df filas i f H Hf)
      as (_ & _ & _ & Hae & Hbe & _ & _ & Ha & Hb & _).
    cbn zeta in *. unfold emitir.
    rewrite Ha, Hb, Hae, Hbe.
    destruct (Hnan f Hin) as [E | E]; rewrite E;
      rewrite ?nlt_nan_l, ?nlt_nan_r; reflexivity. }
  split; [exact E|]. rewrite E. reflexivity.
Qed.

Lemma historia_insuficiente_witness :
  generar_señales filas_cortas = []
  /\ calcular_rendimiento filas_cortas (generar_señales filas_cortas) = None.
Proof.
  apply (historia_insuficiente float _ Binary64Laws.laws talib_ref estrategia_ejemplo
           barras_cortas filas_cortas filas_cortas_ok).
  vm_compute. repeat (constructor; [right; reflexivity|]). constructor.
Defined.

(** ** More on [generar_señales] *)

Section Procedencia.

Context {T : Type} {N : Num T}.

Lemma emitir_casos (f : Fila T) (s : Señal T) :
  In s (emitir f) ->
  (s = señal_de COMPRA f /\ cruce_alcista f = true)
  \/ (s = señal_de VENTA f /\ cruce_alcista f = false /\ cruce_bajista f = true).
Proof.
  unfold emitir. destruct (cruce_alcista f); [|destruct (cruce_bajista f)]; cbn.
  - intros [<- | []]. left. auto.
  - intros [<- | []]. right. auto.
  - intros [].
Qed.

Lemma emitir_length (f : Fila T) :
  length (emitir f) = if cruce_alcista f || cruce_bajista f then 1%nat else 0%nat.
Proof.
  unfold emitir. destruct (cruce_alcista f); [|destruct (cruce_bajista f)]; reflexivity.
Qed.

End Procedencia.

(** X11.  Every signal of [generar_señales] is the snapshot of one row of
    the frame: a BUY signal comes from a row whose [cruce_alcista] is set, a
    SELL signal from a row whose [cruce_bajista] is set and whose
    [cruce_alcista] is not, and the signal carries that row's symbol, time,
    close price, EMAs, VWAP, price-vs-VWAP percentage, RSI and MACD, with
    the confirmations of its type. *)
Theorem generar_senales_procedencia
  (T : Type) (N : Num T) (df : list (Fila T)) (s : Señal T) :
  In s (generar_señales df) ->
  exists f, In f df
    /\ (tipo s = COMPRA /\ cruce_alcista f = true
        /\ confirmacion s = confirmar_señal_compra f
        \/ tipo s = VENTA /\ cruce_bajista f = true /\ cruce_alcista f = false
           /\ confirmacion s = confirmar_señal_venta f)
    /\ s_symbol s = symbol (bar f) /\ s_datetime s = datetime (bar f)
    /\ precio s = close (bar f)
    /\ s_ema_rapida s = ema_rapida f /\ s_ema_lenta s = ema_lenta f
    /\ s_vwap s = vwap f /\ s_precio_vs_vwap s = precio_vs_vwap f
    /\ s_rsi s = rsi f /\ s_macd s = macd f.
Proof.
  rewrite generar_señales_flat_map, in_flat_map. intros (f & Hf & Hs).
  exists f. split; [exact Hf|].
  destruct (emitir_casos f s Hs) as [(-> & Ha) | (-> & Ha & Hb)]; cbn; tauto.
Qed.

Lemma generar_senales_procedencia_witness :
  exists f, In f filas_ejemplo /\ precio (señal_de COMPRA (nth 3 filas_ejemplo fila_ambas))
                                  = close (bar f).
Proof.
  destruct (generar_senales_procedencia float _ filas_ejemplo
              (señal_de COMPRA (nth 3 filas_ejemplo fila_ambas)))
    as (f & Hin & _ & _ & _ & Hp & _).
  - vm_compute. left. reflexivity.
  - exists f. split; assumption.
Defined.

(** The two tags, each present when its condition holds. *)
Lemma etiquetas (b1 b2 : bool) :
  let l := (if b1 then ["RSI_OK"%string] else [])
           ++ (if b2 then ["MACD_OK"%string] else []) in
  Subseq l ["RSI_OK"%string; "MACD_OK"%string]
  /\ (In "RSI_OK"%string l <-> b1 = true)
  /\ (In "MACD_OK"%string l <-> b2 = true).
Proof.
  destruct b1, b2; cbn; (split; [|split; split]);
    try (intros H; repeat destruct H as [H|H]; try discriminate H; try contradiction);
    try reflexivity; auto.
  - apply Subseq_refl.
  - apply Subseq_take, Subseq_skip, Subseq_nil.
  - apply Subseq_skip, Subseq_refl.
  - apply Subseq_nil_l.
Qed.

(** X12.  The confirmation list of a row is a sub-list of
    [["RSI_OK"; "MACD_OK"]], in this order.  For a BUY it has "RSI_OK"
    exactly when [rsi < 70] and "MACD_OK" exactly when [macd > macd_signal];
    for a SELL, exactly when [rsi > 30] and when [macd < macd_signal].  An
    unavailable RSI gives no "RSI_OK" and an unavailable MACD or signal
    line gives no "MACD_OK", for either type. *)
Theorem confirmaciones
  (T : Type) (N : Num T) (L : NumLaws T) (f : Fila T) :
  Subseq (confirmar_señal_compra f) ["RSI_OK"%string; "MACD_OK"%string]
  /\ Subseq (confirmar_señal_venta f) ["RSI_OK"%string; "MACD_OK"%string]
  /\ (In "RSI_OK"%string (confirmar_señal_compra f) <-> rsi f [<] of_int 70 = true)
  /\ (In "MACD_OK"%string (confirmar_señal_compra f) <-> macd f [>] macd_signal f = true)
  /\ (In "RSI_OK"%string (confirmar_señal_venta f) <-> rsi f [>] of_int 30 = true)
  /\ (In "MACD_OK"%string (confirmar_señal_venta f) <-> macd f [<] macd_signal f = true)
  /\ (rsi f = nan ->
      ~ In "RSI_OK"%string (confirmar_señal_compra f)
      /\ ~ In "RSI_OK"%string (confirmar_señal_venta f))
  /\ (macd f = nan \/ macd_signal f = nan ->
      ~ In "MACD_OK"%string (confirmar_señal_compra f)
      /\ ~ In "MACD_OK"%string (confirmar_señal_venta f)).
Proof.
  destruct (etiquetas (rsi f [<] of_int 70) (macd f [>] macd_signal f))
    as (Sc & Rc & Mc).
  destruct (etiquetas (rsi f [>] of_int 30) (macd f [<] macd_signal f))
    as (Sv & Rv & Mv).
  cbn zeta in *.
  fold (confirmar_señal_compra f) in Sc, Rc, Mc.
  fold (confirmar_señal_venta f) in Sv, Rv, Mv.
  repeat (split; [assumption|]).
  split.
  - intros E. rewrite Rc, Rv, E, nlt_nan_l, nlt_nan_r. split; discriminate.
  - intros [E | E]; rewrite Mc, Mv, E, ?nlt_nan_l, ?nlt_nan_r; split; discriminate.
Qed.

Lemma confirmaciones_witness :
  ~ In "RSI_OK"%string (confirmar_señal_compra (nth 3 filas_ejemplo fila_ambas))
  /\ In "RSI_OK"%string (confirmar_señal_compra fila_ambas).
Proof.
  split.
  - destruct (confirmaciones float _ Binary64Laws.laws (nth 3 filas_ejemplo fila_ambas))
      as (_ & _ & _ & _ & _ & _ & Hrsi & _).
    apply Hrsi. reflexivity.
  - destruct (confirmaciones float _ Binary64Laws.laws fila_ambas)
      as (_ & _ & Hrsi & _).
    apply Hrsi. reflexivity.
Defined.

(** X13.  Confirmations annotate and never gate: [generar_señales] emits
    exactly one signal for every row with [cruce_alcista] or [cruce_bajista]
    set, whatever the RSI and MACD of the row, and the types of the signals
    are BUY for the rows with [cruce_alcista] and SELL for the others. *)
Theorem generar_senales_sin_filtro (T : Type) (N : Num T) (df : list (Fila T)) :
  let marcadas := filter (fun f => cruce_alcista f || cruce_bajista f) df in
  length (generar_señales df) = length marcadas
  /\ map tipo (generar_señales df)
     = map (fun f => if cruce_alcista f then COMPRA else VENTA) marcadas
  /\ map s_datetime (generar_señales df) = map (fun f => datetime (bar f)) marcadas.
Proof.
  cbn zeta. rewrite generar_señales_flat_map.
  induction df as [|f df (IH1 & IH2 & IH3)]; [repeat split|].
  cbn [flat_map filter]. rewrite length_app, !map_app, IH1, IH2, IH3.
  unfold emitir.
  destruct (cruce_alcista f) eqn:Ea; [|destruct (cruce_bajista f)]; cbn;
    rewrite ?Ea; repeat split.
Qed.

Lemma generar_senales_sin_filtro_witness :
  map tipo (generar_señales [fila_ambas]) = [COMPRA]
  /\ confirmacion (señal_de VENTA (nth 5 filas_ejemplo fila_ambas)) = []
  /\ length (generar_señales filas_ejemplo) = 2%nat.
Proof.
  split; [|split].
  - rewrite (proj1 (proj2 (generar_senales_sin_filtro float _ [fila_ambas]))).
    reflexivity.
  - reflexivity.
  - rewrite (proj1 (generar_senales_sin_filtro float _ filas_ejemplo)).
    vm_compute. reflexivity.
Defined.

(** ** [calcular_indicadores] followed by [generar_señales] *)

(** X14.  Every signal generated from the frame of [calcular_indicadores]
    is taken at a bar of the input (its symbol, time and close price) and
    satisfies the condition of its type on its own snapshot: a BUY has its
    fast EMA above the slow one and its price above the VWAP, a SELL has
    its fast EMA below the slow one and its price not above the VWAP; and
    its price-vs-VWAP field is [(price - vwap) / vwap * 100]. *)
Theorem senales_de_marco
  (T : Type) (N : Num T) (talib : TALib T) (self : Estrategia)
  (df : list (Bar T)) (filas : list (Fila T)) (s : Señal T) :
  calcular_indicadores talib self df = Some filas ->
  In s (generar_señales filas) ->
  (tipo s = COMPRA /\ s_ema_rapida s [>] s_ema_lenta s = true
   /\ precio s [>] s_vwap s = true
   \/ tipo s = VENTA /\ s_ema_rapida s [<] s_ema_lenta s = true
      /\ precio s [>] s_vwap s = false)
  /\ s_precio_vs_vwap s = (precio s [-] s_vwap s) [/] s_vwap s [*] of_int 100
  /\ exists b, In b df /\ s_symbol s = symbol b /\ s_datetime s = datetime b
               /\ precio s = close b.
Proof.
  intros H. rewrite generar_señales_flat_map, in_flat_map. intros (f & Hin & Hs).
  destruct (In_nth_error _ _ Hin) as (i & Hf).
  destruct (fila_local talib self df filas i f H Hf)
    as (_ & Hp & Hsv & Hae & Hbe & _ & _ & Ha & Hb & _).
  destruct (calcular_indicadores_columnas talib self df filas H) as (Cbar & _).
  cbn zeta in *.
  assert (Hbar : In (bar f) df) by (rewrite <- Cbar; apply in_map, Hin).
  split; [|split].
  - destruct (emitir_casos f s Hs) as [(-> & E) | (-> & _ & E)]; cbn.
    + left. rewrite Ha, Hae, Hsv, !andb_true_iff in E. tauto.
    + right. rewrite Hb, Hbe, Hsv, !andb_true_iff, negb_true_iff in E. tauto.
  - destruct (emitir_casos f s Hs) as [(-> & _) | (-> & _)]; exact Hp.
  - exists (bar f).
    destruct (emitir_casos f s Hs) as [(-> & _) | (-> & _)]; cbn; auto.
Qed.

Lemma senales_de_marco_witness :
  let s := señal_de VENTA (nth 5 filas_ejemplo fila_ambas) in
  s_ema_rapida s [<] s_ema_lenta s = true /\ precio s [>] s_vwap s = false.
Proof.
  intros s.
  destruct (senales_de_marco float _ talib_ref estrategia_ejemplo barras_ejemplo
              filas_ejemplo s filas_ejemplo_ok) as ([(Ht & _) | (_ & H)] & _).
  - vm_compute. right. left. reflexivity.
  - discriminate Ht.
  - exact H.
Defined.

Lemma fila_0_sin_señal
  (T : Type) (N : Num T) (L : NumLaws T) (talib : TALib T) (self : Estrategia)
  (df : list (Bar T)) (f : Fila T) (resto : list (Fila T)) :
  calcular_indicadores talib self df = Some (f :: resto) -> emitir f = [].
Proof.
  intros H.
  destruct (fila_local talib self df (f :: resto) 0 f H eq_refl)
    as (_ & _ & _ & Hae & Hbe & _ & _ & Ha & Hb & _).
  cbn [fila_previa valor_previo] in *. unfold emitir.
  rewrite Ha, Hb, Hae, Hbe, nle_nan_l, !andb_false_r. reflexivity.
Qed.

(** X15.  The first bar never gives a signal: the signals generated from
    the frame of [calcular_indicadores] are those of its rows after the
    first, so there is at most one signal per bar after the first, and the
    signal times are, in order, times of those bars. *)
Theorem primera_barra_sin_senal
  (T : Type) (N : Num T) (L : NumLaws T) (talib : TALib T) (self : Estrategia)
  (df : list (Bar T)) (filas : list (Fila T)) :
  calcular_indicadores talib self df = Some filas ->
  generar_señales filas = generar_señales (tl filas)
  /\ (length (generar_señales filas) <= length df - 1)%nat
  /\ Subseq (map s_datetime (generar_señales filas)) (map datetime (tl df)).
Proof.
  intros H.
  destruct (calcular_indicadores_columnas talib self df filas H) as (Cbar & _).
  assert (E : generar_señales filas = generar_señales (tl filas)).
  { rewrite !generar_señales_flat_map. destruct filas as [|f resto]; [reflexivity|].
    cbn [flat_map tl]. rewrite (fila_0_sin_señal T N L talib self df f resto H).
    reflexivity. }
  assert (S : Subseq (map s_datetime (generar_señales filas)) (map datetime (tl df))).
  { rewrite E, generar_señales_flat_map, <- Cbar.
    replace (map datetime (tl (map bar filas)))
      with (map (fun f => datetime (bar f)) (tl filas)).
    - apply emitir_fechas_subseq.
    - destruct filas; cbn [tl map]; [reflexivity|]. rewrite map_map. reflexivity. }
  split; [exact E|]. split; [|exact S].
  apply Subseq_length in S. rewrite !length_map in S.
  destruct df; cbn [tl length] in *; lia.
Qed.

Lemma primera_barra_sin_senal_witness :
  (length (generar_señales filas_ejemplo) <= length (@barras_ejemplo float _) - 1)%nat.
Proof.
  apply (primera_barra_sin_senal float _ Binary64Laws.laws talib_ref estrategia_ejemplo
           barras_ejemplo filas_ejemplo filas_ejemplo_ok).
Defined.

(** ** More on [calcular_rendimiento] *)

Section MasEmparejamiento.

Context {T : Type} {N : Num T}.

Lemma paso_acumula (p : option (Posicion T)) (ops : list (Operacion T)) (s : Señal T) :
  paso (p, ops) s = (fst (paso (p, []) s), ops ++ snd (paso (p, []) s)).
Proof.
  unfold paso. destruct p as [pos|].
  - destruct (tipo_eqb (tipo s) VENTA && String.eqb (p_symbol pos) (s_symbol s));
      cbn [fst snd]; rewrite ?app_nil_r; reflexivity.
  - destruct (tipo_eqb (tipo s) COMPRA); cbn [fst snd]; rewrite ?app_nil_r; reflexivity.
Qed.

(** The trades closed so far are never touched again. *)
Lemma bucle_acumula (l : list (Señal T)) :
  forall (p : option (Posicion T)) (ops : list (Operacion T)),
    bucle l (p, ops) = (fst (bucle l (p, [])), ops ++ snd (bucle l (p, []))).
Proof.
  induction l as [|s l IH]; intros p ops.
  - cbn. rewrite app_nil_r. reflexivity.
  - change (bucle (s :: l) (p, ops)) with (bucle l (paso (p, ops) s)).
    change (bucle (s :: l) (p, [])) with (bucle l (paso (p, []) s)).
    rewrite paso_acumula.
    destruct (paso (p, []) s) as [p' ops'] eqn:E. cbn [fst snd].
    rewrite (IH p' (ops ++ ops')), (IH p' ops'). cbn [fst snd].
    rewrite app_assoc. reflexivity.
Qed.

Lemma bucle_compras (cola : list (Señal T)) :
  Forall (fun s => tipo s = COMPRA) cola ->
  forall st, snd (bucle cola st) = snd st.
Proof.
  induction 1 as [|s cola Hs _ IH]; intros st; [reflexivity|].
  change (bucle (s :: cola) st) with (bucle cola (paso st s)).
  rewrite IH. destruct st as [[pos|] ops].
  - rewrite paso_compra_abierta by exact Hs. reflexivity.
  - rewrite paso_compra_cerrada by exact Hs. reflexivity.
Qed.

Lemma Subseq_filter_length {A : Type} (h : A -> bool) (l1 l2 : list A) :
  Subseq l1 l2 -> (length (filter h l1) <= length (filter h l2))%nat.
Proof.
  induction 1 as [| x l1 l2 _ IH | x l1 l2 _ IH]; cbn [filter].
  - lia.
  - destruct (h x); cbn [length]; lia.
  - destruct (h x); cbn [length]; lia.
Qed.

Definition es_compra (e : Evento (T := T)) : bool := tipo_eqb (fst (fst (fst e))) COMPRA.
Definition es_venta (e : Evento (T := T)) : bool := tipo_eqb (fst (fst (fst e))) VENTA.

Lemma eventos_compra_length (ops : list (Operacion T)) :
  length (filter es_compra (flat_map eventos_de_operacion ops)) = length ops.
Proof. induction ops as [|op ops IH]; cbn; [|rewrite IH]; reflexivity. Qed.

Lemma eventos_venta_length (ops : list (Operacion T)) :
  length (filter es_venta (flat_map eventos_de_operacion ops)) = length ops.
Proof. induction ops as [|op ops IH]; cbn; [|rewrite IH]; reflexivity. Qed.

Lemma filter_eventos (h : Tipo -> bool) (l : list (Señal T)) :
  length (filter (fun e : Evento => h (fst (fst (fst e)))) (map evento_de_señal l))
  = length (filter (fun s => h (tipo s)) l).
Proof.
  induction l as [|s l IH]; [reflexivity|].
  cbn [map filter evento_de_señal fst]. destruct (h (tipo s)); cbn [length]; lia.
Qed.

End MasEmparejamiento.

(** X16.  A position still open when the signals end is not counted:
    BUY signals at the end of the list add no trade and leave the result of
    [calcular_rendimiento] unchanged. *)
Theorem posicion_abierta_al_final
  (T : Type) (N : Num T) (df : list (Fila T)) (señales cola : list (Señal T)) :
  Forall (fun s => tipo s = COMPRA) cola ->
  emparejar (señales ++ cola) = emparejar señales
  /\ calcular_rendimiento df (señales ++ cola) = calcular_rendimiento df señales.
Proof.
  intros Hcola.
  assert (E : emparejar (señales ++ cola) = emparejar señales).
  { unfold emparejar. rewrite bucle_app. apply bucle_compras, Hcola. }
  split; [exact E|]. rewrite !calcular_rendimiento_resumir, E. reflexivity.
Qed.

Lemma posicion_abierta_al_final_witness :
  @calcular_rendimiento float _ [] (señales_ganadora ++ [señal_simple COMPRA "X" 3 120])
  = Some resumen_ganadora.
Proof.
  rewrite (proj2 (posicion_abierta_al_final float _ [] señales_ganadora
                    [señal_simple COMPRA "X" 3 120]
                    ltac:(repeat constructor))).
  vm_compute. reflexivity.
Defined.

Lemma emparejar_app_cerrada
  (T : Type) (N : Num T) (a b : list (Señal T)) :
  fst (bucle a (None, [])) = None ->
  emparejar (a ++ b) = emparejar a ++ emparejar b.
Proof.
  intros Hflat. unfold emparejar. rewrite bucle_app.
  destruct (bucle a (None, [])) as [p ops] eqn:E. cbn [fst snd] in *. subst p.
  rewrite bucle_acumula. reflexivity.
Qed.

(** X17.  The signal list can be cut wherever no position is open: if the
    pairing loop ends the first part with no open position, the trades of
    the whole list are the trades of the first part followed by the trades
    of the second part, and the second part starts with no position. *)
Theorem emparejar_por_tramos
  (T : Type) (N : Num T) (a b : list (Señal T)) :
  fst (bucle a (None, [])) = None ->
  emparejar (a ++ b) = emparejar a ++ emparejar b
  /\ fst (bucle (a ++ b) (None, [])) = fst (bucle b (None, [])).
Proof.
  intros Hflat. split; [apply emparejar_app_cerrada, Hflat|].
  rewrite bucle_app.
  destruct (bucle a (None, [])) as [p ops] eqn:E. cbn [fst] in Hflat. subst p.
  rewrite bucle_acumula. reflexivity.
Qed.

Lemma emparejar_por_tramos_witness :
  @emparejar float _ (señales_ganadora ++ señales_doble_compra)
  = emparejar señales_ganadora ++ emparejar señales_doble_compra.
Proof.
  apply (emparejar_por_tramos float _ señales_ganadora señales_doble_compra).
  vm_compute. reflexivity.
Defined.

(** X18.  The number of trades is at most the number of BUY signals, at
    most the number of SELL signals, and at most half the number of
    signals. *)
Theorem numero_de_operaciones_acotado
  (T : Type) (N : Num T) (señales : list (Señal T)) :
  (length (emparejar señales)
   <= length (filter (fun s => tipo_eqb (tipo s) COMPRA) señales))%nat
  /\ (length (emparejar señales)
      <= length (filter (fun s => tipo_eqb (tipo s) VENTA) señales))%nat
  /\ (2 * length (emparejar señales) <= length señales)%nat.
Proof.
  pose proof (emparejar_subseq señales) as S.
  pose proof (Subseq_filter_length es_compra _ _ S) as Hc.
  pose proof (Subseq_filter_length es_venta _ _ S) as Hv.
  rewrite eventos_compra_length in Hc. rewrite eventos_venta_length in Hv.
  unfold es_compra in Hc. unfold es_venta in Hv.
  rewrite (filter_eventos (fun t => tipo_eqb t COMPRA)) in Hc.
  rewrite (filter_eventos (fun t => tipo_eqb t VENTA)) in Hv.
  split; [exact Hc|]. split; [exact Hv|].
  assert (Hlen : (length señales
                  = length (filter (fun s => tipo_eqb (tipo s) COMPRA) señales)
                    + length (filter (fun s => tipo_eqb (tipo s) VENTA) señales))%nat).
  { clear. induction señales as [|s l IH]; [reflexivity|].
    cbn [filter length]. destruct (tipo s); cbn [tipo_eqb length]; lia. }
  lia.
Qed.

(** The trade that a BUY signal and a SELL signal make. *)
Definition operacion_de {T : Type} {N : Num T} (compra venta : Señal T) : Operacion T :=
  {| o_symbol := s_symbol venta;
     o_entrada := precio compra;
     salida := precio venta;
     o_fecha_entrada := s_datetime compra;
     fecha_salida := s_datetime venta;
     rendimiento := (precio venta [-] precio compra) [/] precio compra [*] of_int 100 |}.

(** X19.  On a list made of BUY/SELL pairs, each SELL with the symbol of
    its BUY, the pairing loop closes exactly one trade per pair, in order:
    bought at the BUY's price and time, sold at the SELL's. *)
Theorem emparejar_pares
  (T : Type) (N : Num T) (pares : list (Señal T * Señal T)) :
  Forall (fun cv => tipo (fst cv) = COMPRA /\ tipo (snd cv) = VENTA
                    /\ s_symbol (snd cv) = s_symbol (fst cv)) pares ->
  emparejar (flat_map (fun cv => [fst cv; snd cv]) pares)
  = map (fun cv => operacion_de (fst cv) (snd cv)) pares.
Proof.
  induction 1 as [|[c v] pares (Hc & Hv & Hs) _ IH]; [reflexivity|].
  cbn [fst snd] in *. cbn [flat_map map fst snd].
  assert (E : bucle [c; v] (None, []) = (None, [operacion_de c v])).
  { unfold bucle. cbn [fold_left].
    rewrite paso_compra_cerrada by exact Hc.
    rewrite paso_venta_mismo_symbol by (cbn [p_symbol]; assumption).
    reflexivity. }
  rewrite emparejar_app_cerrada by (rewrite E; reflexivity).
  rewrite IH. unfold emparejar at 1. rewrite E. reflexivity.
Qed.

Lemma emparejar_pares_witness :
  @emparejar float _
     (flat_map (fun cv => [fst cv; snd cv])
        [(señal_simple COMPRA "A" 1 100, señal_simple VENTA "A" 2 110);
         (señal_simple COMPRA "B" 3 50, señal_simple VENTA "B" 4 40)])
  = [operacion_de (señal_simple COMPRA "A" 1 100) (señal_simple VENTA "A" 2 110);
     operacion_de (señal_simple COMPRA "B" 3 50) (señal_simple VENTA "B" 4 40)].
Proof.
  apply (emparejar_pares float _
           [(señal_simple COMPRA "A" 1 100, señal_simple VENTA "A" 2 110);
            (señal_simple COMPRA "B" 3 50, señal_simple VENTA "B" 4 40)]).
  repeat constructor.
Defined.

Section RendimientoExacto.

Local Abbreviation EQ := (option Q).

Lemma exact_sub (a b : Q) : (Some a : EQ) [-] Some b = Some (Qred (a - b)).
Proof. reflexivity. Qed.

Lemma exact_rendimiento (e x : Q) :
  0 < e ->
  exists r, ((Some x : EQ) [-] Some e) [/] Some e [*] of_int 100 = Some r
            /\ r == (x - e) / e * 100.
Proof.
  intros He. rewrite exact_sub, exact_div, (exact_positive_nonzero _ He).
  eexists. split; [reflexivity|].
  rewrite !Qred_correct. reflexivity.
Qed.

Lemma porcentaje_positivo (e x : Q) : 0 < e -> (0 < (x - e) / e * 100 <-> e < x).
Proof.
  intros He.
  assert (Hc : 0 < / e * 100).
  { apply Qmult_lt_0_compat; [apply Qinv_lt_0_compat, He | reflexivity]. }
  assert (E : (x - e) / e * 100 == (x - e) * (/ e * 100)) by (unfold Qdiv; ring).
  rewrite E. split.
  - intros Hpos. destruct (Qlt_le_dec e x) as [Hlt|Hle]; [exact Hlt|].
    exfalso. apply (Qlt_irrefl 0). apply Qlt_le_trans with ((x - e) * (/ e * 100)).
    + exact Hpos.
    + rewrite <- (Qmult_0_l (/ e * 100)).
      apply Qmult_le_compat_r; [lra | apply Qlt_le_weak, Hc].
  - intros Hlt. apply Qmult_lt_0_compat; [lra | exact Hc].
Qed.

End RendimientoExacto.

(** X20.  In exact arithmetic, a trade bought at a price above zero has
    the return [(sell - buy) / buy * 100] as a number, and counts as a
    winning trade exactly when it was sold above the price it was bought
    at. *)
Theorem operacion_ganadora_exacta
  (señales : list (Señal (option Q))) (op : Operacion (option Q)) (e x : Q) :
  In op (emparejar señales) ->
  o_entrada op = Some e -> salida op = Some x -> 0 < e ->
  (exists r, rendimiento op = Some r /\ r == (x - e) / e * 100)
  /\ (rendimiento op [>] of_int 0 = true <-> e < x).
Proof.
  intros Hin He Hx Hpos.
  pose proof (emparejar_rendimiento_ok señales) as Hok.
  rewrite Forall_forall in Hok. specialize (Hok op Hin). unfold rendimiento_ok in Hok.
  rewrite He, Hx in Hok.
  destruct (exact_rendimiento e x Hpos) as (r & Er & Hr).
  rewrite Er in Hok. split; [exists r; auto|].
  rewrite Hok, exact_of_int, exact_lt, qlt_bool_iff.
  change (inject_Z 0) with 0. rewrite Hr. apply porcentaje_positivo, Hpos.
Qed.

Lemma operacion_ganadora_exacta_witness :
  rendimiento (@operacion_de (option Q) _ (señal_simple COMPRA "X" 1 100)
                 (señal_simple VENTA "X" 2 110)) [>] of_int 0 = true.
Proof.
  apply (operacion_ganadora_exacta señales_ganadora _ (100 # 1) (110 # 1)).
  - vm_compute. left. reflexivity.
  - reflexivity.
  - reflexivity.
  - reflexivity.
  - reflexivity.
Defined.

Lemma tasa_exacta (g n : nat) :
  (g <= n)%nat -> (0 < n)%nat ->
  exists t, (of_int (Z.of_nat g) [/] of_int (Z.of_nat n) [*] of_int 100 : option Q) = Some t
            /\ 0 <= t /\ t <= 100.
Proof.
  intros Hgn Hn.
  assert (Hn' : 0 < inject_Z (Z.of_nat n)).
  { change 0 with (inject_Z 0). rewrite <- Zlt_Qlt. lia. }
  assert (Hg0 : 0 <= inject_Z (Z.of_nat g)).
  { change 0 with (inject_Z 0). rewrite <- Zle_Qle. lia. }
  assert (Hgn' : inject_Z (Z.of_nat g) <= inject_Z (Z.of_nat n)).
  { rewrite <- Zle_Qle. lia. }
  rewrite !exact_of_int, exact_div, (exact_positive_nonzero _ Hn'), exact_mul.
  eexists. split; [reflexivity|].
  rewrite !Qred_correct.
  assert (H0 : 0 <= inject_Z (Z.of_nat g) / inject_Z (Z.of_nat n)).
  { apply Qle_shift_div_l; [exact Hn'|]. rewrite Qmult_0_l. exact Hg0. }
  assert (H1 : inject_Z (Z.of_nat g) / inject_Z (Z.of_nat n) <= 1).
  { apply Qle_shift_div_r; [exact Hn'|]. rewrite Qmult_1_l. exact Hgn'. }
  change (inject_Z 100) with 100. split; lra.
Qed.

(** X21.  In exact arithmetic the win rate of a summary is always a
    number between 0 and 100, also when returns of trades are not
    numbers. *)
Theorem tasa_acierto_acotada_exacta
  (df : list (Fila (option Q))) (señales : list (Señal (option Q)))
  (r : Rendimiento (option Q)) :
  calcular_rendimiento df señales = Some r ->
  exists t, tasa_acierto r = Some t /\ 0 <= t /\ t <= 100.
Proof.
  rewrite calcular_rendimiento_resumir.
  destruct (emparejar señales) as [|op ops]; [discriminate|].
  unfold resumir. intros E.
  match type of E with Some ?x = Some _ => assert (E' : x = r) by congruence end.
  rewrite <- E'.
  apply (tasa_exacta (length (filter ganadora (op :: ops))) (length (op :: ops))).
  - apply filter_length_le.
  - cbn [length]. lia.
Qed.

Lemma tasa_acierto_acotada_exacta_witness :
  exists t, tasa_acierto (@resumen_ganadora (option Q) _) = Some t /\ 0 <= t /\ t <= 100.
Proof.
  apply (tasa_acierto_acotada_exacta [] señales_ganadora).
  vm_compute. reflexivity.
Defined.

(** ** [obtener_datos] and [ejecutar_estrategia] *)

Set Implicit Arguments.
Set Maximal Implicit Insertion.

(** One candle of the exchange:
    [[timestamp, open, high, low, close, volume]]. *)
Record Vela (T : Type) : Type := {
  v_timestamp : Z;
  v_open : T;
  v_high : T;
  v_low : T;
  v_close : T;
  v_volume : T
}.

(** The three values [ejecutar_estrategia] returns.  [all_rendimientos] is
    a dictionary keyed by symbol, kept in insertion order. *)
Record Salida (T : Type) : Type := {
  all_dataframes : list (list (Fila T));
  all_señales : list (Señal T);
  all_rendimientos : list (string * Rendimiento T)
}.

Unset Maximal Implicit Insertion.
Unset Implicit Arguments.

(** [d[k] = v] on a dictionary in insertion order: the value of an
    existing key is replaced where it stands, a new key goes to the end. *)
Fixpoint dict_set {V : Type} (k : string) (v : V) (d : list (string * V))
  : list (string * V) :=
  match d with
  | [] => [(k, v)]
  | (k', v') :: resto =>
      if String.eqb k' k then (k, v) :: resto else (k', v') :: dict_set k v resto
  end.

Section Ejecucion.

Context {T : Type} {N : Num T}.

(** [self.exchange.fetch_ohlcv(symbol, timeframe, limit=limit)] of the
    exchange client, which is not part of the repository: [None] when the
    call raises. *)
Variable fetch_ohlcv : string -> string -> nat -> option (list (Vela T)).
Variable talib : TALib T.

(** The frame of one instrument, or [None] where the [except] branch
    returns [None].  The [datetime] column is the instant of [timestamp],
    kept here as the same count of milliseconds. *)
Definition obtener_datos (self : Estrategia) (symbol : string) (limit : nat)
  : option (list (Bar T)) :=
  match fetch_ohlcv symbol (timeframe self) limit with
  | Some ohlcv =>
      Some (map (fun v =>
                   {| timestamp := v_timestamp v; open := v_open v; high := v_high v;
                      low := v_low v; close := v_close v; volume := v_volume v;
                      datetime := v_timestamp v; symbol := symbol |})
                ohlcv)
  | None => None
  end.

(** One iteration of the loop over [self.symbols], on the three
    collections; what is printed is left out.  [None] is an exception that
    leaves the method: the column assignment of [calcular_indicadores], or
    [df.iloc[-1]] on a frame without rows. *)
Definition ejecutar_symbol (self : Estrategia) (acc : Salida T) (symbol : string)
  : option (Salida T) :=
  match obtener_datos self symbol 200 with
  | None => Some acc
  | Some df =>
      match calcular_indicadores talib self df with
      | None => None
      | Some df =>
          let señales := generar_señales df in
          let all_señales' := all_señales acc ++ señales in
          let rendimiento := calcular_rendimiento df señales in
          let all_rendimientos' :=
            match rendimiento with
            | Some r => dict_set symbol r (all_rendimientos acc)
            | None => all_rendimientos acc
            end in
          match last (map Some df) None with
          | None => None
          | Some ultimo_row =>
              Some {| all_dataframes := all_dataframes acc ++ [df];
                      all_señales := all_señales';
                      all_rendimientos := all_rendimientos' |}
          end
      end
  end.

Definition ejecutar_paso (self : Estrategia) (acc : option (Salida T)) (symbol : string)
  : option (Salida T) :=
  match acc with
  | Some a => ejecutar_symbol self a symbol
  | None => None
  end.

(** The loop over a list of symbols. *)
Definition ejecutar_symbols (self : Estrategia) (l : list string) (acc : option (Salida T))
  : option (Salida T) :=
  fold_left (ejecutar_paso self) l acc.

Definition salida_vacia : Salida T :=
  {| all_dataframes := []; all_señales := []; all_rendimientos := [] |}.

(** The returned triple; writing the CSV file is left out. *)
Definition ejecutar_estrategia (self : Estrategia) : option (Salida T) :=
  ejecutar_symbols self (symbols self) (Some salida_vacia).

End Ejecucion.

Section EjecucionProps.

Context {T : Type} {N : Num T}.
Variable fetch_ohlcv : string -> string -> nat -> option (list (Vela T)).
Variable talib : TALib T.
Variable self : Estrategia.

Local Abbreviation obtener := (obtener_datos fetch_ohlcv self).
Local Abbreviation correr := (ejecutar_symbols fetch_ohlcv talib self).

Lemma ejecutar_symbols_None (l : list string) : correr l None = None.
Proof. induction l as [|s l IH]; [reflexivity | exact IH]. Qed.

Lemma ejecutar_symbols_cons (s : string) (l : list string) (acc : option (Salida T)) :
  correr (s :: l) acc = correr l (ejecutar_paso fetch_ohlcv talib self acc s).
Proof. reflexivity. Qed.

Lemma ejecutar_symbols_app (l1 l2 : list string) (acc : option (Salida T)) :
  correr (l1 ++ l2) acc = correr l2 (correr l1 acc).
Proof. apply fold_left_app. Qed.

Lemma last_map_Some {A : Type} (l : list A) :
  last (map Some l) None = None -> l = [].
Proof.
  induction l as [|x l IH]; [reflexivity|].
  cbn [map]. destruct l as [|y l]; [discriminate|].
  intros H. specialize (IH H). discriminate IH.
Qed.

(** The outcome of one symbol, case by case. *)
Lemma ejecutar_symbol_casos (acc : Salida T) (s : string) :
  (obtener s 200%nat = None /\ ejecutar_symbol fetch_ohlcv talib self acc s = Some acc)
  \/ (exists df, obtener s 200%nat = Some df
                 /\ (calcular_indicadores talib self df = None \/ df = [])
                 /\ ejecutar_symbol fetch_ohlcv talib self acc s = None)
  \/ (exists df filas,
         obtener s 200%nat = Some df /\ df <> []
         /\ calcular_indicadores talib self df = Some filas /\ filas <> []
         /\ ejecutar_symbol fetch_ohlcv talib self acc s
            = Some {| all_dataframes := all_dataframes acc ++ [filas];
                      all_señales := all_señales acc ++ generar_señales filas;
                      all_rendimientos :=
                        match calcular_rendimiento filas (generar_señales filas) with
                        | Some r => dict_set s r (all_rendimientos acc)
                        | None => all_rendimientos acc
                        end |}).
Proof.
  unfold ejecutar_symbol.
  destruct (obtener s 200%nat) as [df|] eqn:Hdf; [|left; auto].
  right.
  destruct (calcular_indicadores talib self df) as [filas|] eqn:Hfilas.
  - pose proof (calcular_indicadores_length talib self df filas Hfilas) as Hlen.
    destruct (last (map Some filas) None) as [u|] eqn:Hlast.
    + right. exists df, filas.
      assert (Hne : filas <> []) by (intros ->; discriminate Hlast).
      repeat split; try assumption.
      intros ->. destruct filas; [contradiction | discriminate Hlen].
    + left. exists df. apply last_map_Some in Hlast. subst filas.
      destruct df; [|discriminate Hlen]. auto.
  - left. exists df. auto.
Qed.

End EjecucionProps.

Section Diccionario.

Context {V : Type}.

Lemma dict_set_in_keys (k : string) (v : V) (d : list (string * V)) (x : string) :
  In x (map fst (dict_set k v d)) -> x = k \/ In x (map fst d).
Proof.
  induction d as [|[k' v'] d IH]; cbn [dict_set map fst In].
  - intros [<- | []]. left. reflexivity.
  - destruct (String.eqb_spec k' k) as [->|Hne]; cbn [map fst In].
    + intros [<- | H]; auto.
    + intros [<- | H]; [auto|]. destruct (IH H); auto.
Qed.

Lemma dict_set_NoDup (k : string) (v : V) (d : list (string * V)) :
  NoDup (map fst d) -> NoDup (map fst (dict_set k v d)).
Proof.
  induction d as [|[k' v'] d IH]; cbn [dict_set map fst]; intros Hnd.
  - repeat constructor. intros [].
  - inversion Hnd as [|? ? Hnot Hrest]; subst.
    destruct (String.eqb_spec k' k) as [->|Hne]; cbn [map fst].
    + constructor; assumption.
    + constructor; [|apply IH, Hrest].
      intros Hin. apply dict_set_in_keys in Hin. destruct Hin as [-> | Hin]; auto.
Qed.

Lemma dict_set_Forall (P : string * V -> Prop) (k : string) (v : V) (d : list (string * V)) :
  P (k, v) -> Forall P d -> Forall P (dict_set k v d).
Proof.
  intros Hk. induction 1 as [|[k' v'] d Hx Hd IH]; cbn [dict_set].
  - repeat constructor. exact Hk.
  - destruct (String.eqb k' k); constructor; assumption.
Qed.

End Diccionario.

Section Simbolos.

Context {T : Type} {N : Num T}.

(** The trades of signals of one instrument are trades of that
    instrument. *)
Lemma bucle_symbols (k : string) (señales : list (Señal T)) :
  Forall (fun s => s_symbol s = k) señales ->
  forall st, Forall (fun op => o_symbol op = k) (snd st) ->
             Forall (fun op => o_symbol op = k) (snd (bucle señales st)).
Proof.
  induction 1 as [|s resto Hs _ IH]; intros st Hst; [exact Hst|].
  change (bucle (s :: resto) st) with (bucle resto (paso st s)). apply IH.
  destruct (paso_casos st s) as [E | [(ops & -> & Ht) | (pos & ops & -> & Ht & Hsym)]].
  - rewrite E. exact Hst.
  - rewrite paso_compra_cerrada by assumption. exact Hst.
  - rewrite paso_venta_mismo_symbol by assumption. cbn [snd] in *.
    apply Forall_app. split; [exact Hst|]. repeat constructor. exact Hs.
Qed.

Lemma emparejar_symbols (k : string) (señales : list (Señal T)) :
  Forall (fun s => s_symbol s = k) señales ->
  Forall (fun op => o_symbol op = k) (emparejar señales).
Proof. intros Hk. apply bucle_symbols; [exact Hk | constructor]. Qed.

Lemma generar_señales_symbols (k : string) (filas : list (Fila T)) :
  Forall (fun f => symbol (bar f) = k) filas ->
  Forall (fun s => s_symbol s = k) (generar_señales filas).
Proof.
  intros Hk. rewrite generar_señales_flat_map, Forall_forall in *.
  intros s Hs. apply in_flat_map in Hs. destruct Hs as (f & Hf & Hs).
  destruct (emitir_casos f s Hs) as [(-> & _) | (-> & _)]; cbn; auto.
Qed.

End Simbolos.

Section Invariante.

Context {T : Type} {N : Num T}.
Variable fetch_ohlcv : string -> string -> nat -> option (list (Vela T)).
Variable talib : TALib T.
Variable self : Estrategia.

Local Abbreviation obtener := (obtener_datos fetch_ohlcv self).
Local Abbreviation correr := (ejecutar_symbols fetch_ohlcv talib self).

(** The frames retrieved for a symbol: one, or none when retrieval fails. *)
Definition recuperado (s : string) : list (list (Bar T)) :=
  match obtener s 200%nat with
  | Some df => [df]
  | None => []
  end.

Definition marco_ok (pre : list string) (filas : list (Fila T)) : Prop :=
  filas <> []
  /\ calcular_indicadores talib self (map bar filas) = Some filas
  /\ exists k, In k pre /\ Forall (fun f => symbol (bar f) = k) filas.

Definition rendimiento_ok_de (pre : list string) (dfs : list (list (Fila T)))
  (kr : string * Rendimiento T) : Prop :=
  In (fst kr) pre
  /\ exists filas, In filas dfs
       /\ Forall (fun f => symbol (bar f) = fst kr) filas
       /\ calcular_rendimiento filas (generar_señales filas) = Some (snd kr).

(** What holds of the three collections after the symbols [pre]. *)
Definition invariante (pre : list string) (acc : Salida T) : Prop :=
  map (map bar) (all_dataframes acc) = flat_map recuperado pre
  /\ Forall (marco_ok pre) (all_dataframes acc)
  /\ all_señales acc = flat_map generar_señales (all_dataframes acc)
  /\ NoDup (map fst (all_rendimientos acc))
  /\ Forall (rendimiento_ok_de pre (all_dataframes acc)) (all_rendimientos acc).

Lemma obtener_symbol (s : string) (df : list (Bar T)) :
  obtener s 200%nat = Some df -> Forall (fun b => symbol b = s) df.
Proof.
  unfold obtener_datos. destruct (fetch_ohlcv s (timeframe self) 200) as [ohlcv|];
    [|discriminate].
  intros E. injection E as <-. rewrite Forall_map. apply Forall_forall. reflexivity.
Qed.

Lemma invariante_paso (pre : list string) (acc acc' : Salida T) (s : string) :
  invariante pre acc ->
  ejecutar_symbol fetch_ohlcv talib self acc s = Some acc' ->
  invariante (pre ++ [s]) acc'.
Proof.
  intros (I1 & I2 & I3 & I4 & I5) Hstep.
  assert (M2 : forall dfs, Forall (marco_ok pre) dfs -> Forall (marco_ok (pre ++ [s])) dfs).
  { intros dfs. apply Forall_impl. intros filas (Hne & Hc & k & Hk & Hf).
    repeat split; try assumption. exists k. split; [apply in_or_app; auto | exact Hf]. }
  assert (M5 : forall dfs extra rs,
             Forall (rendimiento_ok_de pre dfs) rs ->
             Forall (rendimiento_ok_de (pre ++ [s]) (dfs ++ extra)) rs).
  { intros dfs extra rs. apply Forall_impl. intros kr (Hk & filas & Hin & Hf & Hr).
    split; [apply in_or_app; auto|]. exists filas. repeat split; try assumption.
    apply in_or_app. auto. }
  destruct (ejecutar_symbol_casos fetch_ohlcv talib self acc s)
    as [(Hnone & E) | [(df & _ & _ & E) | (df & filas & Hdf & Hne & Hfilas & Hfne & E)]];
    rewrite E in Hstep; [| discriminate |]; injection Hstep as <-.
  - unfold invariante. rewrite flat_map_app. cbn [flat_map]. unfold recuperado at 2.
    rewrite Hnone, !app_nil_r. repeat split; try assumption.
    + apply M2, I2.
    + rewrite <- (app_nil_r (all_dataframes acc)). apply M5, I5.
  - destruct (calcular_indicadores_columnas talib self df filas Hfilas) as (Cbar & _).
    assert (Hsym : Forall (fun f => symbol (bar f) = s) filas).
    { pose proof (obtener_symbol s df Hdf) as Hb. rewrite <- Cbar, Forall_map in Hb.
      exact Hb. }
    unfold invariante. cbn [all_dataframes all_señales all_rendimientos].
    rewrite !map_app, !flat_map_app. cbn [map flat_map]. unfold recuperado at 2.
    rewrite Hdf, Cbar, I1, I3, !app_nil_r.
    split; [reflexivity|]. split; [|split; [reflexivity|]].
    + apply Forall_app. split; [apply M2, I2|]. repeat constructor; [exact Hfne | |].
      * rewrite Cbar. exact Hfilas.
      * exists s. split; [apply in_or_app; cbn; auto | exact Hsym].
    + destruct (calcular_rendimiento filas (generar_señales filas)) as [r|] eqn:Hr.
      * split; [apply dict_set_NoDup, I4|].
        apply dict_set_Forall; [|apply M5, I5].
        split; [apply in_or_app; cbn; auto|].
        exists filas. repeat split; [apply in_or_app; cbn; auto | exact Hsym | exact Hr].
      * split; [exact I4 | apply M5, I5].
Qed.

Lemma invariante_correr (l : list string) :
  forall (pre : list string) (acc out : Salida T),
    invariante pre acc ->
    correr l (Some acc) = Some out ->
    invariante (pre ++ l) out.
Proof.
  induction l as [|s l IH]; intros pre acc out Hinv Hrun.
  - cbn in Hrun. injection Hrun as <-. rewrite app_nil_r. exact Hinv.
  - rewrite ejecutar_symbols_cons in Hrun. cbn [ejecutar_paso] in Hrun.
    destruct (ejecutar_symbol fetch_ohlcv talib self acc s) as [acc'|] eqn:Hstep.
    + replace (pre ++ s :: l) with ((pre ++ [s]) ++ l) by (rewrite <- app_assoc; reflexivity).
      eapply IH; [|exact Hrun]. eapply invariante_paso; eassumption.
    + rewrite ejecutar_symbols_None in Hrun. discriminate.
Qed.

Lemma invariante_final (out : Salida T) :
  ejecutar_estrategia fetch_ohlcv talib self = Some out ->
  invariante (symbols self) out.
Proof.
  intros H. apply (invariante_correr (symbols self) [] salida_vacia out); [|exact H].
  repeat split; constructor.
Qed.

End Invariante.

(** *** A small exchange *)

(** An exchange that knows one instrument with the seven candles of
    [barras_ejemplo], returns no candle for ["VACIO/USDT"], and fails on
    every other symbol. *)
Definition fetch_ejemplo (symbol timeframe : string) (limit : nat)
  : option (list (Vela float)) :=
  if String.eqb symbol "WLD/USDT" then
    Some (map (fun q : Z * Z =>
                 let (t, c) := q in
                 {| v_timestamp := t; v_open := of_int c; v_high := of_int c;
                    v_low := of_int c; v_close := of_int c; v_volume := of_int 1 |})
              [(1, 10); (2, 9); (3, 8); (4, 12); (5, 13); (6, 7); (7, 6)]%Z)
  else if String.eqb symbol "VACIO/USDT" then Some []
  else None.

Definition estrategia_dos : Estrategia :=
  {| symbols := ["FALLA/USDT"%string; "WLD/USDT"%string]; timeframe := "1h";
     periodo_rapida := 2; periodo_lenta := 3 |}.

Definition estrategia_vacio : Estrategia :=
  {| symbols := ["WLD/USDT"%string; "VACIO/USDT"%string]; timeframe := "1h";
     periodo_rapida := 2; periodo_lenta := 3 |}.

Example ejecutar_estrategia_dos :
  option_map (fun out => (map (map bar) (all_dataframes out),
                          map (fun s => (tipo s, s_symbol s, s_datetime s)) (all_señales out),
                          map (fun kr => (fst kr, num_operaciones (snd kr)))
                              (all_rendimientos out)))
             (ejecutar_estrategia fetch_ejemplo talib_ref estrategia_dos)
  = Some ([barras_ejemplo],
          [(COMPRA, "WLD/USDT"%string, 4%Z); (VENTA, "WLD/USDT"%string, 6%Z)],
          [("WLD/USDT"%string, 1%nat)]).
Proof. vm_compute. reflexivity. Qed.

Definition salida_dos : Salida float :=
  match ejecutar_estrategia fetch_ejemplo talib_ref estrategia_dos with
  | Some out => out
  | None => salida_vacia
  end.

Lemma salida_dos_ok :
  ejecutar_estrategia fetch_ejemplo talib_ref estrategia_dos = Some salida_dos.
Proof. vm_compute. reflexivity. Qed.

(** X22.  A symbol whose retrieval fails is skipped and changes nothing:
    the loop of [ejecutar_estrategia] over a list of symbols gives the same
    result as over the symbols whose retrieval succeeds; when every
    retrieval fails the method returns three empty collections. *)
Theorem fallos_de_obtener_datos_omitidos
  (T : Type) (N : Num T)
  (fetch_ohlcv : string -> string -> nat -> option (list (Vela T)))
  (talib : TALib T) (self : Estrategia) :
  (forall (l : list string) (acc : option (Salida T)),
      ejecutar_symbols fetch_ohlcv talib self l acc
      = ejecutar_symbols fetch_ohlcv talib self
          (filter (fun s => match obtener_datos fetch_ohlcv self s 200 with
                            | Some _ => true
                            | None => false
                            end) l) acc)
  /\ ((forall s, In s (symbols self) -> obtener_datos fetch_ohlcv self s 200 = None) ->
      ejecutar_estrategia fetch_ohlcv talib self = Some salida_vacia).
Proof.
  assert (Hskip : forall (l : list string) (acc : option (Salida T)),
             ejecutar_symbols fetch_ohlcv talib self l acc
             = ejecutar_symbols fetch_ohlcv talib self
                 (filter (fun s => match obtener_datos fetch_ohlcv self s 200 with
                                   | Some _ => true
                                   | None => false
                                   end) l) acc).
  { induction l as [|s l IH]; intros acc; [reflexivity|].
    rewrite ejecutar_symbols_cons. cbn [filter].
    destruct (obtener_datos fetch_ohlcv self s 200) as [df|] eqn:Hdf.
    - rewrite ejecutar_symbols_cons. apply IH.
    - rewrite IH. f_equal. destruct acc as [a|]; [|reflexivity].
      cbn [ejecutar_paso]. unfold ejecutar_symbol. rewrite Hdf. reflexivity. }
  split; [exact Hskip|].
  intros Hfail. unfold ejecutar_estrategia. rewrite Hskip.
  replace (filter _ (symbols self)) with (@nil string); [reflexivity|].
  symmetry. induction (symbols self) as [|s l IH]; [reflexivity|].
  cbn [filter]. rewrite (Hfail s (or_introl eq_refl)). apply IH.
  intros x Hx. apply Hfail. right. exact Hx.
Qed.

Lemma fallos_de_obtener_datos_omitidos_witness :
  ejecutar_estrategia fetch_ejemplo talib_ref estrategia_dos
  = ejecutar_symbols fetch_ejemplo talib_ref estrategia_dos ["WLD/USDT"%string]
      (Some salida_vacia)
  /\ ejecutar_estrategia fetch_ejemplo talib_ref
       {| symbols := ["FALLA/USDT"%string; "OTRA/USDT"%string]; timeframe := "1h";
          periodo_rapida := 2; periodo_lenta := 3 |}
     = Some salida_vacia.
Proof.
  split.
  - unfold ejecutar_estrategia.
    rewrite (proj1 (fallos_de_obtener_datos_omitidos float _ fetch_ejemplo talib_ref
                      estrategia_dos)).
    reflexivity.
  - apply (fallos_de_obtener_datos_omitidos float _ fetch_ejemplo talib_ref).
    intros s [<- | [<- | []]]; reflexivity.
Defined.

(** X23.  A retrieval that succeeds with no candle aborts the whole run:
    if [obtener_datos] returns a frame without rows for one of the symbols,
    [ejecutar_estrategia] raises ([df.iloc[-1]], if not TA-Lib before it)
    and returns nothing, whatever the other symbols give. *)
Theorem marco_vacio_aborta
  (T : Type) (N : Num T)
  (fetch_ohlcv : string -> string -> nat -> option (list (Vela T)))
  (talib : TALib T) (self : Estrategia) (s : string) :
  In s (symbols self) ->
  obtener_datos fetch_ohlcv self s 200 = Some [] ->
  ejecutar_estrategia fetch_ohlcv talib self = None.
Proof.
  intros Hin Hvacio. unfold ejecutar_estrategia.
  generalize (Some (@salida_vacia T)). revert Hin.
  induction (symbols self) as [|x l IH]; intros Hin acc; [contradiction|].
  rewrite ejecutar_symbols_cons.
  destruct Hin as [-> | Hin]; [|apply IH, Hin].
  replace (ejecutar_paso fetch_ohlcv talib self acc s) with (@None (Salida T)).
  - apply ejecutar_symbols_None.
  - destruct acc as [a|]; [|reflexivity]. cbn [ejecutar_paso].
    destruct (ejecutar_symbol_casos fetch_ohlcv talib self a s)
      as [(Hnone & _) | [(df & _ & _ & E) | (df & filas & Hdf & Hne & _)]].
    + congruence.
    + symmetry. exact E.
    + congruence.
Qed.

Lemma marco_vacio_aborta_witness :
  ejecutar_estrategia fetch_ejemplo talib_ref estrategia_vacio = None.
Proof.
  apply (marco_vacio_aborta float _ fetch_ejemplo talib_ref estrategia_vacio "VACIO/USDT").
  - right. left. reflexivity.
  - reflexivity.
Defined.

(** X24.  When [ejecutar_estrategia] returns, [all_dataframes] holds, in
    the order of [self.symbols], one frame with at least one row per symbol
    whose retrieval succeeded: the frame [calcular_indicadores] makes of the
    retrieved bars.  [all_señales] is the concatenation of the signals of
    these frames, and every signal carries a symbol of [self.symbols]. *)
Theorem ejecutar_estrategia_marcos
  (T : Type) (N : Num T)
  (fetch_ohlcv : string -> string -> nat -> option (list (Vela T)))
  (talib : TALib T) (self : Estrategia) (out : Salida T) :
  ejecutar_estrategia fetch_ohlcv talib self = Some out ->
  map (map bar) (all_dataframes out)
  = flat_map (fun s => match obtener_datos fetch_ohlcv self s 200 with
                       | Some df => [df]
                       | None => []
                       end) (symbols self)
  /\ Forall (fun filas => filas <> []
                          /\ calcular_indicadores talib self (map bar filas) = Some filas)
            (all_dataframes out)
  /\ all_señales out = flat_map generar_señales (all_dataframes out)
  /\ Forall (fun s => In (s_symbol s) (symbols self)) (all_señales out).
Proof.
  intros H.
  destruct (invariante_final fetch_ohlcv talib self out H) as (I1 & I2 & I3 & _).
  split; [exact I1|]. split; [|split; [exact I3|]].
  - revert I2. apply Forall_impl. intros filas (Hne & Hc & _). auto.
  - rewrite I3, Forall_forall. intros s Hs.
    apply in_flat_map in Hs. destruct Hs as (filas & Hfilas & Hs).
    rewrite Forall_forall in I2. destruct (I2 filas Hfilas) as (_ & _ & k & Hk & Hsym).
    pose proof (generar_señales_symbols k filas Hsym) as Hall.
    rewrite Forall_forall in Hall. rewrite (Hall s Hs). exact Hk.
Qed.

Lemma ejecutar_estrategia_marcos_witness :
  map (map bar) (all_dataframes salida_dos) = [barras_ejemplo]
  /\ Forall (fun s => In (s_symbol s) (symbols estrategia_dos)) (all_señales salida_dos).
Proof.
  destruct (ejecutar_estrategia_marcos float _ fetch_ejemplo talib_ref estrategia_dos
              salida_dos salida_dos_ok) as (H1 & _ & _ & H4).
  split; [|exact H4]. rewrite H1. reflexivity.
Defined.

(** X25.  When [ejecutar_estrategia] returns, the keys of
    [all_rendimientos] are distinct symbols of [self.symbols]; the value of
    a key is the summary [calcular_rendimiento] gives on the signals of a
    returned frame of that symbol, it has at least one trade, and all its
    trades are trades of that symbol. *)
Theorem ejecutar_estrategia_rendimientos
  (T : Type) (N : Num T)
  (fetch_ohlcv : string -> string -> nat -> option (list (Vela T)))
  (talib : TALib T) (self : Estrategia) (out : Salida T) :
  ejecutar_estrategia fetch_ohlcv talib self = Some out ->
  NoDup (map fst (all_rendimientos out))
  /\ Forall (fun kr : string * Rendimiento T =>
               In (fst kr) (symbols self)
               /\ (exists filas, In filas (all_dataframes out)
                     /\ Forall (fun f => symbol (bar f) = fst kr) filas
                     /\ calcular_rendimiento filas (generar_señales filas) = Some (snd kr))
               /\ operaciones (snd kr) <> []
               /\ Forall (fun op => o_symbol op = fst kr) (operaciones (snd kr)))
            (all_rendimientos out).
Proof.
  intros H.
  destruct (invariante_final fetch_ohlcv talib self out H) as (_ & _ & _ & I4 & I5).
  split; [exact I4|]. revert I5. apply Forall_impl.
  intros [k r] (Hk & filas & Hin & Hsym & Hr). cbn [fst snd] in *.
  split; [exact Hk|]. split; [exists filas; auto|].
  rewrite calcular_rendimiento_resumir in Hr.
  pose proof (resumir_some _ _ Hr) as Hops. rewrite Hops. split.
  - intros Hnil. rewrite Hnil in Hr. discriminate Hr.
  - apply emparejar_symbols, generar_señales_symbols, Hsym.
Qed.

Lemma ejecutar_estrategia_rendimientos_witness :
  map fst (all_rendimientos salida_dos) = ["WLD/USDT"%string]
  /\ NoDup (map fst (all_rendimientos salida_dos)).
Proof.
  split; [vm_compute; reflexivity|].
  apply (ejecutar_estrategia_rendimientos float _ fetch_ejemplo talib_ref
           estrategia_dos salida_dos salida_dos_ok).
Defined.
